(** * munin-node-go: a shallow embedding of [munin-node.go]

    The node answers the Munin line protocol over TCP, runs plugins found
    in a plugin directory, stages [env.KEY value] assignments of a
    plugin-configuration file and admits clients by regular expressions
    on their address.

    Layout of the development:
    - [strings], [filepath], [bufio], [regexp]: the parts of the Go
      libraries the program calls, with Go strings as byte strings
      ([string], one [ascii] per byte);
    - the operating system as the program sees it ([OS], read only) and
      the state of the process ([Proc]: the process-wide environment
      table and the subprocesses spawned so far);
    - the functions of [munin-node.go] under their own names, with the
      node configuration, the operating system and the state of the process
      as explicit arguments;
    - the properties, one theorem per claim.

    The node configuration is read once at startup and only read
    afterwards, so it is a value [NodeConfig] here. The accept loop of
    [startNode] and the lines written through the logger are left out;
    what [isAllowedIP] prints is kept, as a list of messages. *)

From stdpp Require Import gmap strings list.
From Stdlib Require Import Ascii String NArith Lia.

Local Open Scope string_scope.
Local Open Scope list_scope.
Local Open Scope stdpp_scope.

(** ** Go values *)

(** A Go call returning [(T, error)]. *)
Inductive result (E T : Type) : Type :=
| Ok (v : T)
| Err (e : E).
Arguments Ok {E T} v.
Arguments Err {E T} e.

(** A byte string given by its byte values. *)
Definition bytes (l : list nat) : string :=
  string_of_list_ascii (map ascii_of_nat l).

(** The slice expression [s[lo:hi]]. *)
Definition slice (s : string) (lo hi : nat) : string :=
  substring lo (hi - lo) s.

(** The slice expression [s[lo:]]. *)
Definition sliceFrom (s : string) (lo : nat) : string :=
  substring lo (String.length s - lo) s.

(** ** Package [strings] *)

Module strings.

(** [strings.HasPrefix(s, prefix)]. *)
Definition HasPrefix (s pre : string) : bool := String.prefix pre s.

(** [strings.HasSuffix(s, suffix)]:
    [len(s) >= len(suffix) && s[len(s)-len(suffix):] == suffix]. *)
Definition HasSuffix (s suf : string) : bool :=
  (String.length suf <=? String.length s)%nat
  && String.eqb (sliceFrom s (String.length s - String.length suf)) suf.

(** [strings.TrimPrefix(s, prefix)]. *)
Definition TrimPrefix (s pre : string) : string :=
  if HasPrefix s pre then sliceFrom s (String.length pre) else s.

(** [strings.Index(s, substr)]; Go's [-1] is [None]. *)
Definition Index (s substr : string) : option nat := String.index 0 substr s.

(** The loop of [genSplit] for a non-empty separator: [n] more cuts are
    allowed. *)
Fixpoint genSplit (n : nat) (s sep : string) : list string :=
  match n with
  | O => [s]
  | S n' =>
    match Index s sep with
    | None => [s]
    | Some m =>
      slice s 0 m :: genSplit n' (sliceFrom s (m + String.length sep)) sep
    end
  end.

(** [strings.SplitN(s, sep, n)] for a non-empty [sep] and [n >= 0]. *)
Definition SplitN (s sep : string) (n : nat) : list string :=
  match n with
  | O => []
  | S n' => genSplit n' s sep
  end.

(** [strings.Split(s, sep)] for a non-empty [sep]: Go allows
    [Count(s, sep)] cuts, the loop stops at the first failed [Index], and
    no string holds more than [len(s)] separators. *)
Definition Split (s sep : string) : list string :=
  genSplit (String.length s) s sep.

(** [strings.Join(elems, sep)]. *)
Fixpoint Join (elems : list string) (sep : string) : string :=
  match elems with
  | [] => ""
  | [e] => e
  | e :: rest => e +:+ sep +:+ Join rest sep
  end.

(** The UTF-8 encodings of the runes for which [unicode.IsSpace] holds:
    U+0009..U+000D, U+0020, U+0085, U+00A0, U+1680, U+2000..U+200A,
    U+2028, U+2029, U+202F, U+205F, U+3000. *)
Definition spaceRunes : list string :=
  map bytes
    [ [9]; [10]; [11]; [12]; [13]; [32];
      [194; 133]; [194; 160];
      [225; 154; 128];
      [226; 128; 128]; [226; 128; 129]; [226; 128; 130]; [226; 128; 131];
      [226; 128; 132]; [226; 128; 133]; [226; 128; 134]; [226; 128; 135];
      [226; 128; 136]; [226; 128; 137]; [226; 128; 138];
      [226; 128; 168]; [226; 128; 169]; [226; 128; 175];
      [226; 129; 159];
      [227; 128; 128] ].

(** Width in bytes of the rune of [runes] that [s] starts with, [0] when it
    starts with none of them. *)
Definition runeWidth (runes : list string) (s : string) : nat :=
  match find (fun r => String.prefix r s) runes with
  | Some r => String.length r
  | None => 0
  end.

(** Drops the leading runes of [s] that are in [runes]; [skip] bytes of the
    rune being dropped are still to go. *)
Fixpoint trimLeading (runes : list string) (s : string) (skip : nat) : string :=
  match s with
  | "" => ""
  | String _ s' =>
    match skip with
    | S k => trimLeading runes s' k
    | O =>
      match runeWidth runes s with
      | O => s
      | S w => trimLeading runes s' w
      end
    end
  end.

(** [strings.TrimLeftFunc(s, unicode.IsSpace)]. A space rune is decoded at a
    position exactly when its encoding starts there: the encodings are valid
    UTF-8, and any other byte sequence decodes to another rune or to
    [RuneError], where trimming stops. *)
Definition TrimLeftSpace (s : string) : string := trimLeading spaceRunes s 0.

(** [strings.TrimRightFunc(s, unicode.IsSpace)]: [DecodeLastRuneInString]
    finds a space rune exactly when its encoding ends the string, so this is
    the trimming of the reversed string by the reversed encodings. *)
Definition TrimRightSpace (s : string) : string :=
  String.rev (trimLeading (map String.rev spaceRunes) (String.rev s) 0).

(** [strings.TrimSpace(s)]. *)
Definition TrimSpace (s : string) : string := TrimRightSpace (TrimLeftSpace s).

(** The loop of [strings.Fields]: [cur] is the field being read. *)
Fixpoint fieldsFrom (s : string) (skip : nat) (cur : string) : list string :=
  let flush := if String.eqb cur "" then [] else [cur] in
  match s with
  | "" => flush
  | String c s' =>
    match skip with
    | S k => fieldsFrom s' k cur
    | O =>
      match runeWidth spaceRunes s with
      | O => fieldsFrom s' 0 (cur +:+ String c "")
      | S w => flush ++ fieldsFrom s' w ""
      end
    end
  end.

(** [strings.Fields(s)]: the maximal runs of non-space runes. *)
Definition Fields (s : string) : list string := fieldsFrom s 0 "".

End strings.

(** ** Package [path/filepath] (Unix) *)

Module filepath.

(** [filepath.IsAbs(path)]. *)
Definition IsAbs (path : string) : bool := strings.HasPrefix path "/".

(** One path element read by [Clean]; [out] holds the elements written so
    far, the last one first. An empty element and [.] write nothing; [..]
    removes the last element written when there is one that is not itself a
    leading [..], is dropped at the root, and is written otherwise; any
    other element is written. *)
Definition cleanElem (rooted : bool) (out : list string) (elem : string)
  : list string :=
  if String.eqb elem "" || String.eqb elem "." then out
  else if String.eqb elem ".." then
    match out with
    | top :: rest => if String.eqb top ".." then elem :: out else rest
    | [] => if rooted then [] else [elem]
    end
  else elem :: out.

(** [filepath.Clean(path)]. Go's loop reads the path byte by byte and every
    turn of it starts at the beginning of an element or at a separator, so it
    handles the [/]-separated elements one after the other; the output
    buffer is the written elements joined by [/], after the leading [/] of
    a rooted path. *)
Definition Clean (path : string) : string :=
  if String.eqb path "" then "."
  else
    let rooted := IsAbs path in
    let out := fold_left (cleanElem rooted) (strings.Split path "/") [] in
    if rooted then "/" +:+ strings.Join (rev out) "/"
    else match out with
         | [] => "."
         | _ => strings.Join (rev out) "/"
         end.

(** [filepath.Join(elem...)]: the elements from the first non-empty one on
    are joined by [/] and cleaned. *)
Fixpoint Join (elem : list string) : string :=
  match elem with
  | [] => ""
  | e :: rest =>
    if String.eqb e "" then Join rest else Clean (strings.Join elem "/")
  end.

(** [filepath.Abs(path)], where [getwd] is what [os.Getwd] returns ([None]
    for an error). *)
Definition Abs (getwd : option string) (path : string) : option string :=
  if IsAbs path then Some (Clean path)
  else match getwd with
       | None => None
       | Some wd => Some (Join [wd; path])
       end.

End filepath.

(** ** Package [bufio]: a [Scanner] with the default [ScanLines] *)

Module bufio.

(** [bufio.MaxScanTokenSize], the buffer limit of a new [Scanner]. *)
Definition MaxScanTokenSize : N := 65536.

(** [dropCR]: one trailing carriage return is removed. *)
Definition dropCR (data : string) : string :=
  if strings.HasSuffix data (bytes [13])
  then slice data 0 (String.length data - 1) else data.

(** The tokens [Scan] yields on the bytes of [input], and whether scanning
    ended with [ErrTooLong]. [cur] is the line being read and [n] its
    length. A line ends at a newline; the bytes left at the end of the input
    are a last line; and once [max] bytes without a newline fill the buffer
    the scanner gives up. *)
Fixpoint scan (max : N) (input : string) (cur : string) (n : N)
  : list string * bool :=
  match input with
  | "" => (if N.eqb n 0 then [] else [dropCR cur], false)
  | String c rest =>
    if Ascii.eqb c "010" then
      let '(ls, e) := scan max rest "" 0%N in (dropCR cur :: ls, e)
    else if (max <=? n + 1)%N then ([], true)
    else scan max rest (cur +:+ String c "") (n + 1)%N
  end.

(** All the lines a [Scanner] with buffer limit [max] reads from [input],
    and [scanner.Err() != nil]. *)
Definition Lines (max : N) (input : string) : list string * bool :=
  scan max input "" 0%N.

End bufio.

(** ** Package [regexp] *)

(** The regular-expression engine is a library: the program only compiles a
    pattern and asks whether a string contains a match. [Match re pre m post]
    says that [re] matches the substring [m] standing between [pre] and
    [post] (anchors and word boundaries look at the context). *)
Record Engine : Type := {
  Regexp : Type;
  Compile : string -> result string Regexp;
  Match : Regexp -> string -> string -> string -> bool;
}.

Module regexp.

(** All the ways of cutting [s] in two. *)
Fixpoint cuts (s : string) : list (string * string) :=
  ("", s) ::
  match s with
  | "" => []
  | String c s' => map (fun '(a, b) => (String c a, b)) (cuts s')
  end.

(** All the substrings of [s], each with what stands before and after it. *)
Definition spans (s : string) : list (string * string * string) :=
  flat_map (fun '(pre, rest) =>
              map (fun '(m, post) => (pre, m, post)) (cuts rest))
           (cuts s).

(** The method [MatchString(s)] of a compiled [Regexp]: whether [s]
    contains any match of [re]. *)
Definition ReMatchString (E : Engine) (re : Regexp E) (s : string) : bool :=
  existsb (fun '(pre, m, post) => Match E re pre m post) (spans s).

(** [regexp.MatchString(pattern, s)]. *)
Definition MatchString (E : Engine) (pattern s : string)
  : result string bool :=
  match Compile E pattern with
  | Err e => Err e
  | Ok re => Ok (ReMatchString E re s)
  end.

End regexp.

(** ** The operating system and the process *)

(** What the program reads of an [os.FileInfo]: [Name()], [IsDir()] and
    [Mode()&os.ModeSymlink != 0]. *)
Record FileInfo : Type := {
  Name : string;
  IsDir : bool;
  ModeSymlink : bool;
}.

(** An opened file as a reader: the bytes its [Read] delivers, and whether
    reading ends with an error (as it does on a directory, or when the
    device fails) instead of the end of the file. *)
Record File : Type := {
  Bytes : string;
  ReadFails : bool;
}.

(** The system calls of the program, on a file system that stays as it is
    while a request is served. A failed call is [None]. *)
Record OS : Type := {
  (** [os.Getwd()] *)
  Getwd : option string;
  (** [os.Lstat(name)]: the link itself is examined, not its target *)
  Lstat : string -> option FileInfo;
  (** [ioutil.ReadDir(dirname)] *)
  ReadDir : string -> option (list FileInfo);
  (** [os.Open(name)] *)
  Open : string -> option File;
  (** [exec.Command(name, arg...).Output()] of a command that inherits the
      given environment: the captured standard output, [None] when the
      program cannot be started or exits with a non-zero status *)
  Output : string -> list string -> gmap string string -> option string;
}.

(** A command handed to [os/exec]: its name, its arguments and the
    environment it inherits. *)
Record Cmd : Type := {
  Path : string;
  Args : list string;
  CmdEnv : gmap string string;
}.

(** The mutable state of the node process: the one environment table of the
    process ([os.Setenv], [os.Environ]) and the commands run so far. *)
Record Proc : Type := {
  environ : gmap string string;
  commands : list Cmd;
}.

(** What a new [bufio.Scanner] yields on an opened file: the lines, and
    whether [scanner.Err()] is not nil in the end. The scanner splits the
    bytes read before a read error as it does those before the end of the
    file, and reports the error afterwards; it reports its own error when a
    line is too long for it. *)
Definition scanFile (file : File) : list string * bool :=
  let '(lines, tooLong) :=
      bufio.Lines bufio.MaxScanTokenSize (Bytes file) in
  (lines, tooLong || ReadFails file).

Module os.

(** Whether the byte [c] occurs in [s]. *)
Fixpoint hasByte (c : ascii) (s : string) : bool :=
  match s with
  | "" => false
  | String c' s' => Ascii.eqb c' c || hasByte c s'
  end.

(** [os.Setenv(key, value)]: [EINVAL] for an empty key, a key holding [=]
    or a NUL byte, and a value holding a NUL byte; otherwise the entry of the
    process environment is written. *)
Definition Setenv (key value : string) (st : Proc) : option Proc :=
  if String.eqb key "" || hasByte "=" key || hasByte "000" key
     || hasByte "000" value
  then None
  else Some {| environ := <[key := value]> (environ st);
               commands := commands st |}.

End os.

(** ** The program *)

Definition lineMax : N := 2048.
Definition version : string := "1.0.6-go".

Record NodeConfig : Type := {
  HostName : string;
  AllowedIPs : list string;
  Host : string;
  Port : string;
  PluginFolder : string;
  PluginConfig : string;
}.

(** The errors the program makes with [fmt.Errorf], one constructor per
    place, with the values formatted into the message. *)
Inductive error : Type :=
| PluginAbsError
| AllowedDirAbsError
| OutsideAllowedDir (absAllowedDir : string)
| PluginInfoError
| SymbolicLink (absPluginPath : string)
| ConfigAbsError
| ConfigOpenError
| InvalidFormat (line : string)
| SetenvError
| FileReadError
| PluginFailed.

(** [fmt.Fprintln(w, a)] for one string operand. *)
Definition Fprintln (a : string) : string := a +:+ bytes [10].

(** *** [isAllowedIP] *)

(** Returns the verdict and what was printed on standard output. *)
Fixpoint isAllowedIP (E : Engine) (clientIP : string)
    (allowedPatterns : list string) : bool * list string :=
  match allowedPatterns with
  | [] => (false, [])
  | pattern :: rest =>
    match regexp.MatchString E pattern clientIP with
    | Err err =>
      let '(b, out) := isAllowedIP E clientIP rest in
      (b, ("Error in IP permission template: " +:+ err +:+ bytes [10]) :: out)
    | Ok match_ =>
      if match_ then (true, []) else isAllowedIP E clientIP rest
    end
  end.

(** *** [listPlugins] *)

Definition listPlugins (conf : NodeConfig) (sys : OS) : string :=
  match ReadDir sys (PluginFolder conf) with
  | None => ""
  | Some files =>
    let plugins :=
      fold_left (fun plugins file =>
                   if negb (IsDir file) then plugins ++ [Name file]
                   else plugins)
                files [] in
    strings.Join plugins " " +:+ bytes [10]
  end.

(** *** [generatePossibleSections] *)

(** [for i := len(parts); i > 0; i--], entered with the counter at [i]. *)
Fixpoint sectionsLoop (parts : list string) (i : nat) (sections : list string)
  : list string :=
  match i with
  | O => sections
  | S i' =>
    sectionsLoop parts i'
      (sections ++ [strings.Join (firstn i parts) "_" +:+ "_*"])
  end.

Definition generatePossibleSections (plugin : string) : list string :=
  let sections := [] ++ ["*"] in
  let parts := strings.Split plugin "_" in
  sectionsLoop parts (List.length parts) sections.

(** *** [loadPluginConfig] *)

(** The inner loop over [possibleSections]: the section that is current
    after a header naming [section]. *)
Fixpoint matchSection (possibleSections : list string) (section : string)
    (currentSection : string) : string :=
  match possibleSections with
  | [] => currentSection
  | sec :: rest =>
    if String.eqb section sec then section
    else matchSection rest section currentSection
  end.

(** One turn of the scanning loop on the text of a line: the new state of
    the process, the new [currentSection], and the error returned from
    inside the loop if any. *)
Definition configLine (possibleSections : list string) (text : string)
    (currentSection : string) (st : Proc) : Proc * string * option error :=
  let line := strings.TrimSpace text in
  if String.eqb line "" || strings.HasPrefix line "#" then
    (st, currentSection, None)
  else if strings.HasPrefix line "[" && strings.HasSuffix line "]" then
    let section := slice line 1 (String.length line - 1) in
    (st, matchSection possibleSections section currentSection, None)
  else if negb (String.eqb currentSection "") && strings.HasPrefix line "env."
  then
    match strings.SplitN line " " 2 with
    | [part0; part1] =>
      let key := strings.TrimPrefix part0 "env." in
      let value := strings.TrimSpace part1 in
      match os.Setenv key value st with
      | None => (st, currentSection, Some SetenvError)
      | Some st' => (st', currentSection, None)
      end
    | _ => (st, currentSection, Some (InvalidFormat line))
    end
  else (st, currentSection, None).

(** [for scanner.Scan() { ... }] over the lines the scanner yields. *)
Fixpoint scanLoop (possibleSections : list string) (lines : list string)
    (currentSection : string) (st : Proc) : Proc * string * option error :=
  match lines with
  | [] => (st, currentSection, None)
  | text :: rest =>
    match configLine possibleSections text currentSection st with
    | (st', currentSection', None) =>
      scanLoop possibleSections rest currentSection' st'
    | failed => failed
    end
  end.

Definition loadPluginConfig (conf : NodeConfig) (sys : OS) (plugin : string)
    (st : Proc) : Proc * option error :=
  match filepath.Abs (Getwd sys) (PluginConfig conf) with
  | None => (st, Some ConfigAbsError)
  | Some absPluginConf =>
    match Open sys absPluginConf with
    | None => (st, Some ConfigOpenError)
    | Some file =>
      let '(lines, failed) := scanFile file in
      let possibleSections := generatePossibleSections plugin in
      match scanLoop possibleSections lines "" st with
      | (st', _, Some err) => (st', Some err)
      | (st', _, None) =>
        if failed then (st', Some FileReadError) else (st', None)
      end
    end
  end.

(** *** [validatePluginPath] *)

Definition validatePluginPath (conf : NodeConfig) (sys : OS)
    (pluginPath : string) : option error :=
  match filepath.Abs (Getwd sys) pluginPath with
  | None => Some PluginAbsError
  | Some absPluginPath =>
    match filepath.Abs (Getwd sys) (PluginFolder conf) with
    | None => Some AllowedDirAbsError
    | Some absAllowedDir =>
      if negb (strings.HasPrefix absPluginPath absAllowedDir) then
        Some (OutsideAllowedDir absAllowedDir)
      else
        match Lstat sys absPluginPath with
        | None => Some PluginInfoError
        | Some fileInfo =>
          if ModeSymlink fileInfo then Some (SymbolicLink absPluginPath)
          else None
        end
    end
  end.

(** *** [executePlugin] *)

Definition executePlugin (conf : NodeConfig) (sys : OS)
    (plugin option : string) (st : Proc) : Proc * result error string :=
  let pluginPath := filepath.Join [PluginFolder conf; plugin] in
  match validatePluginPath conf sys pluginPath with
  | Some err => (st, Err err)
  | None =>
    match loadPluginConfig conf sys plugin st with
    | (st1, Some err) => (st1, Err err)
    | (st1, None) =>
      let cmd := {| Path := pluginPath; Args := [option];
                    CmdEnv := environ st1 |} in
      let st2 := {| environ := environ st1;
                    commands := commands st1 ++ [cmd] |} in
      match Output sys pluginPath [option] (environ st1) with
      | None => (st2, Err PluginFailed)
      | Some output => (st2, Ok output)
      end
    end
  end.

(** *** [handleConnection] *)

Definition unknownCommand : string :=
  "# Unknown command. Try cap, list, nodes, config, fetch, version or quit".

(** The reply of the [config] and [fetch] cases, which differ in the option
    handed to the plugin only. *)
Definition pluginReply (conf : NodeConfig) (sys : OS) (cmd arg option : string)
    (st : Proc) : Proc * string :=
  if (1 <? String.length cmd)%nat then
    match executePlugin conf sys arg option st with
    | (st', Err _) =>
      (st', Fprintln ("# Unknown service" +:+ bytes [10] +:+ "."))
    | (st', Ok output) => (st', output +:+ Fprintln ".")
    end
  else
    (st, Fprintln ("# Unknown service" +:+ bytes [10] +:+ "." +:+ bytes [10])).

(** The body of the loop for one line: the state of the process, the bytes
    written to the connection, and whether the loop goes on ([false] for
    [quit]). *)
Definition handleLine (conf : NodeConfig) (sys : OS) (line : string)
    (st : Proc) : Proc * string * bool :=
  match strings.Fields line with
  | [] => (st, Fprintln unknownCommand, true)
  | cmd :: args =>
    let arg := match args with [] => "" | a :: _ => a end in
    if String.eqb cmd "cap" then (st, Fprintln "cap multigraph", true)
    else if String.eqb cmd "version" then
      (st, "munin node version: " +:+ version +:+ bytes [10], true)
    else if String.eqb cmd "nodes" then
      (st, HostName conf +:+ bytes [10] +:+ "." +:+ bytes [10], true)
    else if String.eqb cmd "list" then
      (st, Fprintln (listPlugins conf sys), true)
    else if String.eqb cmd "config" then
      let '(st', out) := pluginReply conf sys cmd arg "config" st in
      (st', out, true)
    else if String.eqb cmd "fetch" then
      let '(st', out) := pluginReply conf sys cmd arg "" st in
      (st', out, true)
    else if String.eqb cmd "quit" then (st, "", false)
    else (st, Fprintln unknownCommand, true)
  end.

(** [for scanner.Scan() { ... }] over the lines read from the connection. *)
Fixpoint serve (conf : NodeConfig) (sys : OS) (lines : list string)
    (st : Proc) : Proc * string :=
  match lines with
  | [] => (st, "")
  | line :: rest =>
    match handleLine conf sys line st with
    | (st', out, true) =>
      let '(st'', out') := serve conf sys rest st' in (st'', out +:+ out')
    | (st', out, false) => (st', out)
    end
  end.

(** Everything written to a connection on which the client sends [input]. *)
Definition handleConnection (conf : NodeConfig) (sys : OS) (input : string)
    (st : Proc) : Proc * string :=
  let banner := "# munin node at " +:+ HostName conf +:+ bytes [10] in
  let '(lines, _) := bufio.Lines lineMax input in
  let '(st', out) := serve conf sys lines st in
  (st', banner +:+ out).

(** ** Vocabulary of the properties *)

(** The section appended when the loop counter is [i]. *)
Definition candidate (parts : list string) (i : nat) : string :=
  strings.Join (firstn i parts) "_" +:+ "_*".

(** The section a line names when the scanning loop of [loadPluginConfig]
    takes it for a header. *)
Definition sectionHeader (text : string) : option string :=
  let line := strings.TrimSpace text in
  if String.eqb line "" || strings.HasPrefix line "#" then None
  else if strings.HasPrefix line "[" && strings.HasSuffix line "]"
  then Some (slice line 1 (String.length line - 1))
  else None.

(** The lines the scanner of [loadPluginConfig] reads from the
    plugin-configuration file; none when the file cannot be opened. *)
Definition configLines (conf : NodeConfig) (sys : OS) : list string :=
  match filepath.Abs (Getwd sys) (PluginConfig conf) with
  | None => []
  | Some absPluginConf =>
    match Open sys absPluginConf with
    | None => []
    | Some file => fst (scanFile file)
    end
  end.

(** A header that names one of the sections of [possibleSections]. *)
Definition opensSection (possibleSections : list string) (text : string)
  : Prop :=
  exists section,
    sectionHeader text = Some section /\ In section possibleSections.

(** An [env.] line with no value token: nothing follows the key after a
    space. *)
Definition envLineWithoutValue (text : string) : Prop :=
  strings.HasPrefix (strings.TrimSpace text) "env." = true
  /\ strings.Index (strings.TrimSpace text) " " = None.

(** The assignment an [env.KEY value] line asks for. *)
Definition lineAssignment (text : string) : option (string * string) :=
  let line := strings.TrimSpace text in
  if strings.HasPrefix line "env." then
    match strings.SplitN line " " 2 with
    | [part0; part1] =>
      Some (strings.TrimPrefix part0 "env.", strings.TrimSpace part1)
    | _ => None
    end
  else None.

(** An environment table after the assignments [assigned], made in order. *)
Definition setAll (assigned : list (string * string))
    (env : gmap string string) : gmap string string :=
  fold_left (fun env kv => <[fst kv := snd kv]> env) assigned env.

(** The environment set of the specification: the file is scanned from top
    to bottom; a header opens a section when its text is one of the
    candidate sections and leaves none open when it is not; while a section
    is open, every [env.KEY value] line contributes [KEY -> value]. The
    contributions come in the order of the file. [open] tells whether a
    section is open at the first line. *)
Fixpoint environmentSet (possibleSections lines : list string) (open : bool)
  : list (string * string) :=
  match lines with
  | [] => []
  | text :: rest =>
    match sectionHeader text with
    | Some section =>
      environmentSet possibleSections rest
        (existsb (String.eqb section) possibleSections)
    | None =>
      (if open then
         match lineAssignment text with Some kv => [kv] | None => [] end
       else [])
      ++ environmentSet possibleSections rest open
    end
  end.

(** No header that names none of the candidate sections stands below a
    header that names one; [opened] tells whether a header that names one
    stands above the first line. *)
Fixpoint sectionsNeverClose (possibleSections lines : list string)
    (opened : bool) : bool :=
  match lines with
  | [] => true
  | text :: rest =>
    match sectionHeader text with
    | Some section =>
      if existsb (String.eqb section) possibleSections
      then sectionsNeverClose possibleSections rest true
      else negb opened && sectionsNeverClose possibleSections rest opened
    | None => sectionsNeverClose possibleSections rest opened
    end
  end.

(** The value the last assignment to [key] gives among [assigned], if
    there is one. *)
Definition lastAssigned (key : string) (assigned : list (string * string))
  : option string :=
  fold_left (fun found kv =>
               if String.eqb (fst kv) key then Some (snd kv) else found)
            assigned None.

(** The errors of [validatePluginPath]: the requested path is refused. *)
Definition isPathSecurityError (err : error) : bool :=
  match err with
  | PluginAbsError | AllowedDirAbsError | OutsideAllowedDir _
  | PluginInfoError | SymbolicLink _ => true
  | _ => false
  end.

(** Containment by path segments: [path] is [dir] or lies below it. *)
Definition withinDir (dir path : string) : bool :=
  String.eqb path dir
  || strings.HasPrefix path (if strings.HasSuffix dir "/" then dir
                             else dir +:+ "/").

(** A reply whose last line holds a single dot and nothing else. *)
Definition endsWithDotLine (reply : string) : bool :=
  String.eqb reply ("." +:+ bytes [10])
  || strings.HasSuffix reply (bytes [10] +:+ "." +:+ bytes [10]).

(** The messages [isAllowedIP] prints for the patterns of a list that do
    not compile. *)
Definition malformedLog (E : Engine) (patterns : list string) : list string :=
  flat_map (fun pattern =>
              match Compile E pattern with
              | Err err =>
                ["Error in IP permission template: " +:+ err +:+ bytes [10]]
              | Ok _ => []
              end) patterns.

(** Whether [pattern] compiles and [s] contains a match of it. *)
Definition matches (E : Engine) (s pattern : string) : bool :=
  match regexp.MatchString E pattern s with
  | Ok true => true
  | _ => false
  end.

(** The patterns [isAllowedIP] goes past: those before the first one that
    matches. *)
Fixpoint beforeFirstMatch (E : Engine) (s : string) (patterns : list string)
  : list string :=
  match patterns with
  | [] => []
  | pattern :: rest =>
    if matches E s pattern then [] else pattern :: beforeFirstMatch E s rest
  end.

(** ** Fixtures *)

Module Fixture.

Definition nl : string := bytes [10].

(** A node whose plugins live in [/plugins]. *)
Definition conf : NodeConfig :=
  {| HostName := "node1"; AllowedIPs := []; Host := ""; Port := "4949";
     PluginFolder := "/plugins"; PluginConfig := "/etc/munin/plugin-conf" |}.

Definition regular (name : string) : FileInfo :=
  {| Name := name; IsDir := false; ModeSymlink := false |}.
Definition symlink (name : string) : FileInfo :=
  {| Name := name; IsDir := false; ModeSymlink := true |}.

(** A file system given by the files [Lstat] finds and the contents of the
    plugin-configuration file. Every plugin prints its own path, its
    argument and the value it sees for the variable [SECRET]. *)
Definition system (files : list (string * FileInfo)) (pluginConf : string)
  : OS :=
  {| Getwd := Some "/";
     Lstat := fun name =>
       snd <$> find (fun f => String.eqb (fst f) name) files;
     ReadDir := fun dirname =>
       if String.eqb dirname "/plugins"
       then Some [regular "cpu"; regular "memory"] else None;
     Open := fun name =>
       if String.eqb name "/etc/munin/plugin-conf"
       then Some {| Bytes := pluginConf; ReadFails := false |}
       else None;
     Output := fun name args env =>
       Some (name +:+ " " +:+ strings.Join args " " +:+ " SECRET="
             +:+ default "" (env !! "SECRET") +:+ nl) |}.

(** The same system with plugins that print [output] and nothing else. *)
Definition printing (output : string) (sys : OS) : OS :=
  {| Getwd := Getwd sys; Lstat := Lstat sys; ReadDir := ReadDir sys;
     Open := Open sys; Output := fun _ _ _ => Some output |}.

Definition start : Proc := {| environ := ∅; commands := [] |}.

(** An engine for a fragment of the syntax of regular expressions, enough
    for the patterns of the examples: literal bytes, [\c] for the byte [c],
    [.] for any byte but a newline, a star after any of these, [^] in front
    and [$] at the end. Anything else is refused. *)
Inductive atom : Type := AnyByte | Byte (c : ascii).

Inductive token : Type :=
| TAtom (a : atom) | TStar | TCaret | TDollar | TOther (c : ascii).

Inductive item : Type := One (a : atom) | Many (a : atom).

Record fragment : Type := {
  anchoredStart : bool;
  items : list item;
  anchoredEnd : bool;
}.

Fixpoint tokens (s : string) (escaped : bool) : result string (list token) :=
  match s with
  | "" =>
    if escaped then Err "trailing backslash at end of expression"
    else Ok []
  | String c s' =>
    let cons t :=
      match tokens s' false with Ok ts => Ok (t :: ts) | Err e => Err e end in
    if escaped then cons (TAtom (Byte c))
    else if Ascii.eqb c "\" then tokens s' true
    else if Ascii.eqb c "." then cons (TAtom AnyByte)
    else if Ascii.eqb c "*" then cons TStar
    else if Ascii.eqb c "^" then cons TCaret
    else if Ascii.eqb c "$" then cons TDollar
    else if os.hasByte c "+?()[]{}|" then cons (TOther c)
    else cons (TAtom (Byte c))
  end.

Fixpoint group (ts : list token) : result string (list item * bool) :=
  match ts with
  | [] => Ok ([], false)
  | [TDollar] => Ok ([], true)
  | TAtom a :: TStar :: ts' =>
    match group ts' with
    | Ok (its, e) => Ok (Many a :: its, e)
    | Err e => Err e
    end
  | TAtom a :: ts' =>
    match group ts' with
    | Ok (its, e) => Ok (One a :: its, e)
    | Err e => Err e
    end
  | TStar :: _ => Err "missing argument to repetition operator: `*`"
  | _ => Err "outside the fragment"
  end.

Definition compile (pattern : string) : result string fragment :=
  match tokens pattern false with
  | Err e => Err ("error parsing regexp: " +:+ e)
  | Ok ts =>
    let '(a, ts') := match ts with
                     | TCaret :: ts' => (true, ts')
                     | _ => (false, ts)
                     end in
    match group ts' with
    | Err e => Err ("error parsing regexp: " +:+ e)
    | Ok (its, e) =>
      Ok {| anchoredStart := a; items := its; anchoredEnd := e |}
    end
  end.

Definition atomMatches (a : atom) (c : ascii) : bool :=
  match a with
  | AnyByte => negb (Ascii.eqb c "010")
  | Byte c' => Ascii.eqb c c'
  end.

Fixpoint itemsMatch (its : list item) : string -> bool :=
  match its with
  | [] => fun m => String.eqb m ""
  | One a :: rest =>
    fun m => match m with
             | "" => false
             | String c m' => atomMatches a c && itemsMatch rest m'
             end
  | Many a :: rest =>
    fix many (m : string) : bool :=
      itemsMatch rest m
      || match m with
         | "" => false
         | String c m' => atomMatches a c && many m'
         end
  end.

Definition fragmentEngine : Engine :=
  {| Regexp := fragment;
     Compile := compile;
     Match := fun re pre m post =>
       (negb (anchoredStart re) || String.eqb pre "")
       && (negb (anchoredEnd re) || String.eqb post "")
       && itemsMatch (items re) m |}.

End Fixture.

Import Fixture.

(** ** The rest of the program *)

(** *** Package [net] *)

Module net.

(** [bytealg.IndexByteString(s, c)]; Go's [-1] is [None]. *)
Fixpoint IndexByte (s : string) (c : ascii) : option nat :=
  match s with
  | "" => None
  | String c' s' => if Ascii.eqb c' c then Some 0 else S <$> IndexByte s' c
  end.

(** [bytealg.LastIndexByteString(s, c)]. *)
Fixpoint LastIndexByte (s : string) (c : ascii) : option nat :=
  match s with
  | "" => None
  | String c' s' =>
    match LastIndexByte s' c with
    | Some i => Some (S i)
    | None => if Ascii.eqb c' c then Some 0 else None
    end
  end.

(** The checks [SplitHostPort] makes once the host is known: no bracket
    may stand from [j] resp. [k] on, and the port starts after the colon at
    [i]. *)
Definition hostPort (hostport host : string) (i j k : nat)
  : result string (string * string) :=
  match IndexByte (sliceFrom hostport j) "[" with
  | Some _ => Err "unexpected '[' in address"
  | None =>
    match IndexByte (sliceFrom hostport k) "]" with
    | Some _ => Err "unexpected ']' in address"
    | None => Ok (host, sliceFrom hostport (i + 1))
    end
  end.

(** [net.SplitHostPort(hostport)], the error being the reason of the
    [AddrError]. *)
Definition SplitHostPort (hostport : string)
  : result string (string * string) :=
  match LastIndexByte hostport ":" with
  | None => Err "missing port in address"
  | Some i =>
    if strings.HasPrefix hostport "[" then
      match IndexByte hostport "]" with
      | None => Err "missing ']' in address"
      | Some end_ =>
        if (end_ + 1 =? String.length hostport)%nat then
          Err "missing port in address"
        else if (end_ + 1 =? i)%nat then
          hostPort hostport (slice hostport 1 end_) i 1 (end_ + 1)
        else if String.eqb (slice hostport (end_ + 1) (end_ + 2)) ":" then
          Err "too many colons in address"
        else Err "missing port in address"
      end
    else
      let host := slice hostport 0 i in
      match IndexByte host ":" with
      | Some _ => Err "too many colons in address"
      | None => hostPort hostport host i 0 0
      end
  end.

End net.

(** *** [readNodeConfig] *)

Definition nodeConfigPath : string := "node.conf".

(** [NodeConfig{}], the value of [nodeConf] when the program starts. *)
Definition emptyConfig : NodeConfig :=
  {| HostName := ""; AllowedIPs := []; Host := ""; Port := "";
     PluginFolder := ""; PluginConfig := "" |}.

(** The two errors [readNodeConfig] makes. *)
Inductive configError : Type :=
| CouldNotOpen
| ErrorReading.

(** The body of the scanning loop of [readNodeConfig] on the text of a
    line: what becomes of [nodeConf]. *)
Definition nodeConfigLine (text : string) (nodeConf : NodeConfig)
  : NodeConfig :=
  let line := strings.TrimSpace text in
  if String.eqb line "" || strings.HasPrefix line "#" then nodeConf
  else
    match strings.SplitN line " " 2 with
    | [key; value] =>
      if String.eqb key "host_name" then
        {| HostName := value; AllowedIPs := AllowedIPs nodeConf;
           Host := Host nodeConf; Port := Port nodeConf;
           PluginFolder := PluginFolder nodeConf;
           PluginConfig := PluginConfig nodeConf |}
      else if String.eqb key "allow" then
        {| HostName := HostName nodeConf;
           AllowedIPs := AllowedIPs nodeConf ++ [value];
           Host := Host nodeConf; Port := Port nodeConf;
           PluginFolder := PluginFolder nodeConf;
           PluginConfig := PluginConfig nodeConf |}
      else if String.eqb key "host" then
        {| HostName := HostName nodeConf; AllowedIPs := AllowedIPs nodeConf;
           Host := if String.eqb value "*" then "" else value;
           Port := Port nodeConf;
           PluginFolder := PluginFolder nodeConf;
           PluginConfig := PluginConfig nodeConf |}
      else if String.eqb key "port" then
        {| HostName := HostName nodeConf; AllowedIPs := AllowedIPs nodeConf;
           Host := Host nodeConf; Port := value;
           PluginFolder := PluginFolder nodeConf;
           PluginConfig := PluginConfig nodeConf |}
      else if String.eqb key "plugins" then
        {| HostName := HostName nodeConf; AllowedIPs := AllowedIPs nodeConf;
           Host := Host nodeConf; Port := Port nodeConf;
           PluginFolder := value;
           PluginConfig := PluginConfig nodeConf |}
      else if String.eqb key "plugins_config" then
        {| HostName := HostName nodeConf; AllowedIPs := AllowedIPs nodeConf;
           Host := Host nodeConf; Port := Port nodeConf;
           PluginFolder := PluginFolder nodeConf;
           PluginConfig := value |}
      else nodeConf
    | _ => nodeConf
    end.

(** [readNodeConfig(configPath)]: the global [nodeConf] afterwards and the
    error returned. *)
Definition readNodeConfig (sys : OS) (configPath : string)
    (nodeConf : NodeConfig) : NodeConfig * option configError :=
  match Open sys configPath with
  | None => (nodeConf, Some CouldNotOpen)
  | Some file =>
    let '(lines, failed) := scanFile file in
    let nodeConf' :=
      fold_left (fun conf text => nodeConfigLine text conf) lines nodeConf in
    (nodeConf', if failed then Some ErrorReading else None)
  end.

(** *** [startNode]: one turn of the accept loop *)

(** What the loop does with an accepted connection whose remote address
    prints as [remoteAddr] and on which the client sends [input], the
    session being followed to its end: the state of the process, the bytes
    written to the connection before it is closed, and what is printed on
    standard output. *)
Definition acceptTurn (E : Engine) (conf : NodeConfig) (sys : OS)
    (remoteAddr input : string) (st : Proc) : Proc * string * list string :=
  let clientIP := match net.SplitHostPort remoteAddr with
                  | Ok (host, _) => host
                  | Err _ => ""
                  end in
  let '(allowed, printed) := isAllowedIP E clientIP (AllowedIPs conf) in
  if negb allowed then
    (st, "",
     printed ++ ["Access denied for IP: " +:+ clientIP +:+ bytes [10]])
  else
    let '(st', out) := handleConnection conf sys input st in
    (st', out, printed).

(** ** Vocabulary of the further properties *)

(** The directive a line of the node configuration gives: its key and its
    value. *)
Definition directive (text : string) : option (string * string) :=
  let line := strings.TrimSpace text in
  if String.eqb line "" || strings.HasPrefix line "#" then None
  else
    match strings.SplitN line " " 2 with
    | [key; value] => Some (key, value)
    | _ => None
    end.

(** The values the directives of [lines] give for [key], in order. *)
Definition valuesOf (key : string) (lines : list string) : list string :=
  flat_map (fun text =>
              match directive text with
              | Some (k, v) => if String.eqb k key then [v] else []
              | None => []
              end) lines.

(** The value of a setting after the directives [values] for it, the last
    one counting. *)
Definition lastOr (old : string) (values : list string) : string :=
  List.last values old.

(** The lines of the node configuration file at [configPath]. *)
Definition nodeConfigLines (sys : OS) (configPath : string) : list string :=
  match Open sys configPath with
  | None => []
  | Some file => fst (scanFile file)
  end.

(** A line of the plugin configuration the scanning loop passes over
    whatever the current section: a blank line, a comment, and any line
    that is no header and does not start with [env.]. *)
Definition inert (text : string) : bool :=
  match sectionHeader text with
  | Some _ => false
  | None => negb (strings.HasPrefix (strings.TrimSpace text) "env.")
  end.

(** The current section after the headers of [lines]: the one named by
    the last header that names a section of [possibleSections]. *)
Fixpoint lastOpened (possibleSections : list string) (lines : list string)
    (currentSection : string) : string :=
  match lines with
  | [] => currentSection
  | text :: rest =>
    lastOpened possibleSections rest
      (match sectionHeader text with
       | Some section =>
         if existsb (String.eqb section) possibleSections then section
         else currentSection
       | None => currentSection
       end)
  end.

(** The command of a line: its first field. *)
Definition commandOf (line : string) : string :=
  hd "" (strings.Fields line).

(** The address [startNode] hands to [isAllowedIP]: the host part of the
    remote address, and the empty string when [net.SplitHostPort] fails,
    its error being dropped. *)
Definition clientIPOf (remoteAddr : string) : string :=
  match net.SplitHostPort remoteAddr with
  | Ok (host, _) => host
  | Err _ => ""
  end.

(** The line that opens every session. *)
Definition banner (conf : NodeConfig) : string :=
  "# munin node at " +:+ HostName conf +:+ bytes [10].

(** The reply for a plugin that could not be run. *)
Definition unknownService : string :=
  "# Unknown service" +:+ bytes [10] +:+ "." +:+ bytes [10].

(** The names [listPlugins] collects from the entries of a directory. *)
Definition pluginNames (files : list FileInfo) : list string :=
  map Name (List.filter (fun file => negb (IsDir file)) files).

(** Fixtures for the node configuration. *)
Module Startup.

(** The same system with one more file. *)
Definition withFile (name content : string) (sys : OS) : OS :=
  {| Getwd := Getwd sys; Lstat := Lstat sys; ReadDir := ReadDir sys;
     Open := fun n =>
       if String.eqb n name
       then Some {| Bytes := content; ReadFails := false |}
       else Open sys n;
     Output := Output sys |}.

Definition nodeConf : string :=
  "# munin node" +:+ nl
  +:+ "host_name node1" +:+ nl
  +:+ "allow ^127\.0\.0\.1$" +:+ nl
  +:+ "allow ^192\.168\.1\..*$" +:+ nl
  +:+ "host *" +:+ nl
  +:+ "port 4949" +:+ nl
  +:+ "port   4950" +:+ nl
  +:+ "timeout 10" +:+ nl
  +:+ "plugins /plugins" +:+ nl
  +:+ "plugins_config /etc/munin/plugin-conf" +:+ nl.

Definition sys : OS :=
  withFile nodeConfigPath nodeConf
           (system [("/plugins/cpu", regular "cpu")] "").

(** [n] times the byte [c]. *)
Fixpoint repeatByte (n : nat) (c : ascii) : string :=
  match n with
  | O => ""
  | S n' => String c (repeatByte n' c)
  end.

End Startup.

(** ** Facts about byte strings *)

Section StringFacts.
Implicit Types s t u : string.

Lemma app_cons c s t : String c s +:+ t = String c (s +:+ t).
Proof. reflexivity. Qed.

Lemma app_empty_l s : "" +:+ s = s.
Proof. reflexivity. Qed.

Lemma app_empty_r s : s +:+ "" = s.
Proof. induction s as [|c s IH]; [done|]. by rewrite app_cons, IH. Qed.

Lemma app_assoc' s t u : (s +:+ t) +:+ u = s +:+ t +:+ u.
Proof. induction s as [|c s IH]; [done|]. by rewrite !app_cons, IH. Qed.

Lemma length_app s t :
  String.length (s +:+ t) = String.length s + String.length t.
Proof.
  induction s as [|c s IH]; [done|]. rewrite app_cons. simpl. by rewrite IH.
Qed.

Lemma substring_all s : substring 0 (String.length s) s = s.
Proof. induction s as [|c s IH]; [done|]. simpl. by rewrite IH. Qed.

Lemma substring_skip s t n :
  substring (String.length s) n (s +:+ t) = substring 0 n t.
Proof.
  induction s as [|c s IH]; [done|]. rewrite app_cons. simpl. exact IH.
Qed.

Lemma substring_split s n :
  n <= String.length s ->
  s = substring 0 n s +:+ substring n (String.length s - n) s.
Proof.
  revert n. induction s as [|c s IH]; intros [|n] Hn; simpl in *;
    try done; try lia.
  - by rewrite substring_all.
  - rewrite app_cons. f_equal. apply IH. lia.
Qed.

Lemma HasSuffix_app s suf : strings.HasSuffix (s +:+ suf) suf = true.
Proof.
  unfold strings.HasSuffix, sliceFrom. rewrite length_app.
  apply andb_true_intro. split; [apply Nat.leb_le; lia|].
  replace (String.length s + String.length suf - String.length suf)
    with (String.length s) by lia.
  replace (String.length s + String.length suf - String.length s)
    with (String.length suf) by lia.
  rewrite substring_skip, substring_all. apply String.eqb_refl.
Qed.

Lemma HasSuffix_inv s suf :
  strings.HasSuffix s suf = true -> exists t, s = t +:+ suf.
Proof.
  unfold strings.HasSuffix, sliceFrom. intros [Hle Heq]%andb_prop.
  apply Nat.leb_le in Hle. apply String.eqb_eq in Heq.
  exists (substring 0 (String.length s - String.length suf) s).
  etrans;
    [apply (substring_split s (String.length s - String.length suf)); lia|].
  by rewrite Heq.
Qed.

End StringFacts.

(** ** The libraries at work *)

Example TrimSpace_examples :
  strings.TrimSpace ("  " +:+ bytes [9; 194; 160] +:+ "env.A 1"
                     +:+ bytes [226; 128; 128; 13]) = "env.A 1"
  /\ strings.TrimSpace (bytes [128] +:+ " ") = bytes [128]
  /\ strings.TrimSpace "" = "".
Proof. vm_compute. repeat split; reflexivity. Qed.

Example Fields_examples :
  strings.Fields ("  config   cpu" +:+ bytes [9] +:+ "x ")
  = ["config"; "cpu"; "x"]
  /\ strings.Fields "" = []
  /\ strings.Fields ("fetch" +:+ bytes [194; 160] +:+ "cpu") = ["fetch"; "cpu"].
Proof. vm_compute. repeat split; reflexivity. Qed.

Example Split_examples :
  strings.Split "diskio_sda" "_" = ["diskio"; "sda"]
  /\ strings.Split "" "_" = [""]
  /\ strings.Split "_a__b_" "_" = [""; "a"; ""; "b"; ""]
  /\ strings.SplitN "env.A   b c" " " 2 = ["env.A"; "  b c"]
  /\ strings.SplitN "env.A" " " 2 = ["env.A"].
Proof. vm_compute. repeat split; reflexivity. Qed.

Example Clean_examples :
  filepath.Clean "a/../../b/./c//d/.." = "../b/c"
  /\ filepath.Clean "/../a/.." = "/"
  /\ filepath.Clean "" = "."
  /\ filepath.Clean "a/.." = "."
  /\ filepath.Join ["/plugins"; "cpu"] = "/plugins/cpu"
  /\ filepath.Join ["/plugins"; "../plugins-evil/x"] = "/plugins-evil/x"
  /\ filepath.Join [""; "cpu"] = "cpu"
  /\ filepath.Join ["/plugins"; ""] = "/plugins"
  /\ filepath.Abs (Some "/srv/munin") "plugins/cpu"
     = Some "/srv/munin/plugins/cpu"
  /\ filepath.Abs None "plugins/cpu" = None
  /\ filepath.Abs None "/plugins/./cpu" = Some "/plugins/cpu".
Proof. vm_compute. repeat split; reflexivity. Qed.

Example Lines_examples :
  bufio.Lines 2048 ("list" +:+ bytes [13; 10] +:+ nl +:+ "quit")
  = (["list"; ""; "quit"], false)
  /\ bufio.Lines 4 ("abc" +:+ nl +:+ "abcd" +:+ nl +:+ "x" +:+ nl)
     = (["abc"], true)
  /\ bufio.Lines 4 "" = ([], false).
Proof. vm_compute. repeat split; reflexivity. Qed.

(** A session: the banner, a reply per line, nothing after [quit]. *)
Example session_example :
  snd (handleConnection conf (system [("/plugins/cpu", regular "cpu")] "")
         ("cap" +:+ bytes [13; 10] +:+ "nodes" +:+ nl +:+ "fetch cpu" +:+ nl
          +:+ "config nothing" +:+ nl +:+ "quit" +:+ nl +:+ "list" +:+ nl)
         start)
  = "# munin node at node1" +:+ nl
    +:+ "cap multigraph" +:+ nl
    +:+ "node1" +:+ nl +:+ "." +:+ nl
    +:+ "/plugins/cpu  SECRET=" +:+ nl +:+ "." +:+ nl
    +:+ "# Unknown service" +:+ nl +:+ "." +:+ nl.
Proof. vm_compute. reflexivity. Qed.

(** ** Plugin directory *)

Lemma collect_plugins files plugins :
  fold_left (fun plugins file =>
               if negb (IsDir file) then plugins ++ [Name file] else plugins)
            files plugins
  = plugins ++ map Name (List.filter (fun file => negb (IsDir file)) files).
Proof.
  revert plugins. induction files as [|file files IH]; intros plugins; simpl.
  - by rewrite app_nil_r.
  - rewrite IH. destruct (IsDir file); simpl; [done|].
    by rewrite <- app_assoc.
Qed.

(** [listPlugins] returns the names of the entries that are no
    directories, joined by spaces and ended by a newline, and the [list]
    command prints that and one more newline. *)
Lemma list_reply conf sys files st :
  ReadDir sys (PluginFolder conf) = Some files ->
  let names := map Name (List.filter (fun file => negb (IsDir file)) files) in
  listPlugins conf sys = strings.Join names " " +:+ bytes [10]
  /\ handleLine conf sys "list" st
     = (st, strings.Join names " " +:+ bytes [10] +:+ bytes [10], true).
Proof.
  intros Hdir names.
  assert (listPlugins conf sys = strings.Join names " " +:+ bytes [10]) as Hl.
  { unfold listPlugins. rewrite Hdir. by rewrite collect_plugins. }
  split; [done|].
  change (handleLine conf sys "list" st)
    with (st, Fprintln (listPlugins conf sys), true).
  rewrite Hl. unfold Fprintln. by rewrite app_assoc'.
Qed.

(** ** Candidate sections *)

Lemma sectionsLoop_spec parts i sections :
  sectionsLoop parts i sections
  = sections ++ map (candidate parts) (rev (seq 1 i)).
Proof.
  revert sections. induction i as [|i IH]; intros sections.
  - simpl. by rewrite app_nil_r.
  - change (sectionsLoop parts (S i) sections)
      with (sectionsLoop parts i (sections ++ [candidate parts (S i)])).
    rewrite IH, seq_S, rev_app_distr. simpl.
    by rewrite <- app_assoc.
Qed.

(** C5: the candidate sections of a plugin whose name has [n] tokens
    between underscores are ["*"] and then, for [i] from [n] down to [1], the
    first [i] tokens joined by underscores and followed by ["_*"]; for
    [diskio_sda] they are ["*"], ["diskio_sda_*"], ["diskio_*"]. *)
Theorem C5_candidate_sections (plugin : string) :
  let parts := strings.Split plugin "_" in
  let n := List.length parts in
  generatePossibleSections plugin
  = "*" :: map (fun i => strings.Join (firstn i parts) "_" +:+ "_*")
               (rev (seq 1 n))
  /\ generatePossibleSections "diskio_sda"
     = ["*"; "diskio_sda_*"; "diskio_*"].
Proof.
  split; [|reflexivity].
  unfold generatePossibleSections. by rewrite sectionsLoop_spec.
Qed.

(** ** The scanning loop of [loadPluginConfig] *)

Section ScanningLoop.
Implicit Types (secs possibleSections lines : list string) (st : Proc).
Implicit Types text line cur section : string.

Lemma HasPrefix_inv s pre :
  strings.HasPrefix s pre = true -> exists t, s = pre +:+ t.
Proof.
  unfold strings.HasPrefix. revert s.
  induction pre as [|c pre IH]; intros s; simpl.
  - intros _. by exists s.
  - destruct s as [|c' s]; [done|]. simpl.
    destruct (ascii_dec c c') as [<-|]; [|done].
    intros [t ->]%IH. by exists t.
Qed.

(** Every candidate section is ["*"] or ends in ["_*"]. *)
Lemma candidates_form plugin section :
  In section (generatePossibleSections plugin) ->
  section = "*" \/ exists stem, section = stem +:+ "_*".
Proof.
  unfold generatePossibleSections. rewrite sectionsLoop_spec. simpl.
  intros [<-|Hin]; [by left|]. right.
  apply in_map_iff in Hin as [i [<- _]]. by eexists.
Qed.

Lemma candidates_nonempty plugin : ~ In "" (generatePossibleSections plugin).
Proof.
  intros [?|[stem Hs]]%candidates_form; [done|].
  apply (f_equal String.length) in Hs. rewrite length_app in Hs.
  simpl in Hs. lia.
Qed.

Lemma matchSection_in secs section cur :
  In section secs -> matchSection secs section cur = section.
Proof.
  induction secs as [|sec secs IH]; simpl; [done|].
  destruct (String.eqb_spec section sec); [done|].
  intros [->|Hin]; [done|]. by apply IH.
Qed.

Lemma matchSection_notin secs section cur :
  ~ In section secs -> matchSection secs section cur = cur.
Proof.
  induction secs as [|sec secs IH]; simpl; [done|].
  intros Hn. destruct (String.eqb_spec section sec) as [->|_].
  - exfalso. apply Hn. by left.
  - apply IH. intros Hin. apply Hn. by right.
Qed.

Lemma matchSection_cases secs section cur :
  matchSection secs section cur = cur
  \/ (matchSection secs section cur = section /\ In section secs).
Proof.
  induction secs as [|sec secs IH]; simpl; [by left|].
  destruct (String.eqb_spec section sec) as [->|_].
  - right. split; [done|by left].
  - destruct IH as [?|[? ?]]; [by left|]. right. split; [done|by right].
Qed.

(** A header line changes the current section only, and only to a
    candidate it names. *)
Lemma configLine_header secs text cur st section :
  sectionHeader text = Some section ->
  configLine secs text cur st = (st, matchSection secs section cur, None).
Proof.
  unfold sectionHeader, configLine. cbv zeta.
  destruct (_ || _); [done|].
  destruct (_ && _); [|done]. by intros [= <-].
Qed.

(** While no section is open, a line that is no header does nothing. *)
Lemma configLine_closed secs text st :
  sectionHeader text = None ->
  configLine secs text "" st = (st, "", None).
Proof.
  unfold sectionHeader, configLine. cbv zeta.
  destruct (_ || _); [done|].
  destruct (_ && _); [done|]. done.
Qed.

(** A line that is no header leaves the current section as it is. *)
Lemma configLine_section secs text cur st :
  sectionHeader text = None ->
  snd (fst (configLine secs text cur st)) = cur.
Proof.
  unfold sectionHeader, configLine. cbv zeta.
  destruct (_ || _); [done|].
  destruct (_ && _); [done|]. intros _.
  destruct (_ && _); [|done].
  destruct (strings.SplitN _ _ _) as [|? [|? [|? ?]]]; try done.
  by destruct (os.Setenv _ _ _).
Qed.

(** An [env.] line is no header. *)
Lemma env_line_no_header text :
  strings.HasPrefix (strings.TrimSpace text) "env." = true ->
  sectionHeader text = None.
Proof.
  unfold sectionHeader. cbv zeta.
  intros [t ->]%HasPrefix_inv. reflexivity.
Qed.

(** Below an open section an [env.] line without a value ends the loop
    with the error for an invalid line. *)
Lemma configLine_invalid secs text cur st :
  cur <> "" ->
  envLineWithoutValue text ->
  configLine secs text cur st
  = (st, cur, Some (InvalidFormat (strings.TrimSpace text))).
Proof.
  intros Hcur [Hpre Hidx]. unfold configLine. cbv zeta.
  apply String.eqb_neq in Hcur. rewrite Hcur, Hpre.
  unfold strings.SplitN, strings.genSplit. rewrite Hidx.
  apply HasPrefix_inv in Hpre as [t ->]. reflexivity.
Qed.

(** The loop over [pre ++ post] is the loop over [pre] and then, unless a
    line of [pre] made it return, the loop over [post]. *)
Lemma scanLoop_app secs pre post cur st :
  scanLoop secs (pre ++ post) cur st
  = match scanLoop secs pre cur st with
    | (st', cur', None) => scanLoop secs post cur' st'
    | failed => failed
    end.
Proof.
  revert cur st. induction pre as [|text pre IH]; intros cur st; [done|].
  simpl. destruct (configLine secs text cur st) as [[st' cur'] [err|]];
    [done|apply IH].
Qed.

(** With no section open and no header naming a candidate, the loop goes
    through the lines and does nothing. *)
Lemma scanLoop_closed secs lines st :
  (forall text, In text lines -> ~ opensSection secs text) ->
  scanLoop secs lines "" st = (st, "", None).
Proof.
  induction lines as [|text lines IH]; intros Hno; [done|]. simpl.
  destruct (sectionHeader text) as [section|] eqn:Hh.
  - rewrite (configLine_header _ _ _ _ _ Hh), matchSection_notin.
    + apply IH. intros t Ht. apply Hno. by right.
    + intros Hin. apply (Hno text); [by left|]. by exists section.
  - rewrite (configLine_closed _ _ _ Hh). apply IH.
    intros t Ht. apply Hno. by right.
Qed.

(** Once a header has named a candidate, a section is open for the rest of
    the loop. *)
Lemma scanLoop_open secs lines cur st st' cur' :
  ~ In "" secs ->
  cur <> "" \/ Exists (opensSection secs) lines ->
  scanLoop secs lines cur st = (st', cur', None) ->
  cur' <> "".
Proof.
  intros Hne. revert cur st.
  induction lines as [|text lines IH]; intros cur st Hopen; simpl.
  - intros [= _ <-]. destruct Hopen as [?|Hex]; [done|]. by inversion Hex.
  - destruct (configLine secs text cur st) as [[st1 cur1] [err|]] eqn:Hl;
      [done|].
    apply IH. destruct (sectionHeader text) as [section|] eqn:Hh.
    + rewrite (configLine_header _ _ _ _ _ Hh) in Hl.
      injection Hl as _ <-.
      destruct (matchSection_cases secs section cur) as [Heq|[-> Hin]].
      * destruct Hopen as [?|Hex]; [left; by rewrite Heq|].
        inversion Hex as [? ? (sec & Hsec & Hin)|]; subst; [|by right].
        left. rewrite Hh in Hsec. injection Hsec as <-.
        rewrite (matchSection_in _ _ _ Hin). by intros ->.
      * left. by intros ->.
    + pose proof (configLine_section secs text cur st Hh) as Hc.
      rewrite Hl in Hc. simpl in Hc. subst cur1.
      destruct Hopen as [?|Hex]; [by left|].
      inversion Hex as [? ? (sec & Hsec & _)|]; subst; [|by right].
      congruence.
Qed.

(** What a line does to the process: no command is run, and the
    environment table is left alone or receives the assignment of the
    line. *)
Lemma configLine_effect secs text cur st :
  let st' := fst (fst (configLine secs text cur st)) in
  commands st' = commands st
  /\ (environ st' = environ st
      \/ exists kv, lineAssignment text = Some kv
                    /\ environ st' = <[fst kv := snd kv]> (environ st)).
Proof.
  unfold configLine, lineAssignment. cbv zeta.
  destruct (_ || _); [by auto|].
  destruct (_ && _); [by auto|].
  destruct (negb _); cbn [andb]; [|by auto].
  destruct (strings.HasPrefix (strings.TrimSpace text) "env."); [|by auto].
  destruct (strings.SplitN _ _ _) as [|part0 [|part1 [|? ?]]]; try by auto.
  unfold os.Setenv. destruct (_ || _); cbn [fst snd environ commands];
    [by auto|].
  split; [done|]. right. by eexists (_, _).
Qed.

(** What the loop does to the process: no command is run, and the
    environment table receives, on top of what it held, assignments of
    lines of the file, in order. *)
Lemma scanLoop_effect secs lines cur st :
  let st' := fst (fst (scanLoop secs lines cur st)) in
  commands st' = commands st
  /\ exists assigned,
       environ st' = setAll assigned (environ st)
       /\ Forall (fun kv => exists text,
                      In text lines /\ lineAssignment text = Some kv)
                 assigned.
Proof.
  revert cur st. induction lines as [|text lines IH]; intros cur st; simpl.
  - split; [done|]. by exists [].
  - pose proof (configLine_effect secs text cur st) as [Hc He].
    destruct (configLine secs text cur st) as [[st1 cur1] [err|]];
      simpl in *.
    + split; [done|]. destruct He as [->|(kv & Hkv & ->)].
      * by exists [].
      * exists [kv]. split; [done|]. constructor; [|done]. eauto.
    + destruct (IH cur1 st1) as [Hc' (assigned & He' & Hall)].
      split; [congruence|]. rewrite He'.
      assert (Forall (fun kv => exists t, (text = t \/ In t lines)
                                          /\ lineAssignment t = Some kv)
                     assigned) as Hall'.
      { eapply Forall_impl; [exact Hall|]. intros kv (t & ? & ?). eauto. }
      destruct He as [->|(kv & Hkv & ->)].
      * by exists assigned.
      * exists (kv :: assigned). split; [done|]. constructor; [|done]. eauto.
Qed.

(** [loadPluginConfig] runs the loop on the lines of the file. *)
Lemma loadPluginConfig_scan conf sys plugin st :
  let secs := generatePossibleSections plugin in
  fst (loadPluginConfig conf sys plugin st)
  = fst (fst (scanLoop secs (configLines conf sys) "" st))
  /\ forall err,
       snd (scanLoop secs (configLines conf sys) "" st) = Some err ->
       snd (loadPluginConfig conf sys plugin st) = Some err.
Proof.
  unfold loadPluginConfig, configLines.
  destruct (filepath.Abs _ _) as [absPluginConf|]; [|done].
  destruct (Open sys absPluginConf) as [file|]; [|done].
  destruct (scanFile file) as [lines tooLong]. cbn [fst].
  destruct (scanLoop _ lines "" st) as [[st' cur'] [err|]]; cbn [fst snd].
  - done.
  - by destruct tooLong.
Qed.

(** What [loadPluginConfig] does to the process. *)
Lemma loadPluginConfig_effect conf sys plugin st :
  let st' := fst (loadPluginConfig conf sys plugin st) in
  commands st' = commands st
  /\ exists assigned,
       environ st' = setAll assigned (environ st)
       /\ Forall (fun kv => exists text,
                      In text (configLines conf sys)
                      /\ lineAssignment text = Some kv)
                 assigned.
Proof.
  cbv zeta. destruct (loadPluginConfig_scan conf sys plugin st) as [-> _].
  apply scanLoop_effect.
Qed.

(** A key that is not assigned keeps its entry. *)
Lemma setAll_other assigned env key :
  ~ In key (map fst assigned) -> setAll assigned env !! key = env !! key.
Proof.
  revert env. induction assigned as [|[k v] assigned IH]; intros env Hn;
    [done|].
  simpl. rewrite IH; [|intros ?; apply Hn; by right].
  apply lookup_insert_ne. intros ->. apply Hn. by left.
Qed.

End ScanningLoop.

(** ** Path validation *)

(** C3: when the candidate path of a plugin is a symbolic link for [Lstat],
    [executePlugin] fails with an error of [validatePluginPath], wherever
    the link points, and the process is left as it was: nothing is run and
    no variable is set. *)
Theorem C3_symlink_rejected (conf : NodeConfig) (sys : OS)
    (plugin option : string) (st : Proc) (absPluginPath : string)
    (fileInfo : FileInfo) :
  filepath.Abs (Getwd sys) (filepath.Join [PluginFolder conf; plugin])
    = Some absPluginPath ->
  Lstat sys absPluginPath = Some fileInfo ->
  ModeSymlink fileInfo = true ->
  exists err,
    executePlugin conf sys plugin option st = (st, Err err)
    /\ isPathSecurityError err = true.
Proof.
  intros Habs Hstat Hlink. unfold executePlugin, validatePluginPath.
  rewrite Habs.
  destruct (filepath.Abs (Getwd sys) (PluginFolder conf)) as [dir|];
    [|by eexists].
  destruct (strings.HasPrefix absPluginPath dir); simpl; [|by eexists].
  rewrite Hstat, Hlink. by eexists.
Qed.

Lemma C3_symlink_rejected_witness :
  exists err,
    executePlugin conf (system [("/plugins/cpu", symlink "cpu")] "")
                  "cpu" "config" start = (start, Err err)
    /\ isPathSecurityError err = true.
Proof.
  apply (C3_symlink_rejected conf _ "cpu" "config" start "/plugins/cpu"
                             (symlink "cpu")); reflexivity.
Defined.

(** C1: with the plugin directory [/plugins], the request for
    [../plugins-evil/x] passes [validatePluginPath], whose test is a prefix
    test on strings, and [executePlugin] runs [/plugins-evil/x], a file of a
    sibling directory that lies outside the plugin directory. *)
Theorem C1_sibling_directory_runs :
  let sys := system [("/plugins-evil/x", regular "x")] "" in
  let st := {| environ := ∅;
               commands := [{| Path := "/plugins-evil/x"; Args := [""];
                               CmdEnv := ∅ |}] |} in
  filepath.Abs (Getwd sys) (filepath.Join [PluginFolder conf;
                                           "../plugins-evil/x"])
    = Some "/plugins-evil/x"
  /\ filepath.Abs (Getwd sys) (PluginFolder conf) = Some "/plugins"
  /\ withinDir "/plugins" "/plugins-evil/x" = false
  /\ strings.HasPrefix "/plugins-evil/x" "/plugins" = true
  /\ executePlugin conf sys "../plugins-evil/x" "" start
     = (st, Ok ("/plugins-evil/x  SECRET=" +:+ nl))
  /\ snd (handleConnection conf sys ("fetch ../plugins-evil/x" +:+ nl) start)
     = "# munin node at node1" +:+ nl +:+ "/plugins-evil/x  SECRET=" +:+ nl
       +:+ "." +:+ nl.
Proof. vm_compute. repeat split; reflexivity. Qed.

(** ** Sections of the plugin configuration *)

(** C4: for the plugin [cpu] and a file with the section [*] followed by
    the section [other], which is no candidate of [cpu], the scanning loop
    keeps [*] as the current section after the header of [other], and the
    assignment below that header is made and reaches the plugin. *)
Theorem C4_section_stays_open :
  let file := "[*]" +:+ nl +:+ "env.A 1" +:+ nl
              +:+ "[other]" +:+ nl +:+ "env.SECRET 2" +:+ nl in
  let sys := system [("/plugins/cpu", regular "cpu")] file in
  ~ In "other" (generatePossibleSections "cpu")
  /\ configLine (generatePossibleSections "cpu") "[other]" "*" start
     = (start, "*", None)
  /\ environ (fst (loadPluginConfig conf sys "cpu" start))
     = <["SECRET" := "2"]> (<["A" := "1"]> ∅)
  /\ snd (executePlugin conf sys "cpu" "" start)
     = Ok ("/plugins/cpu  SECRET=2" +:+ nl).
Proof.
  vm_compute. repeat split; try reflexivity.
  intros H. repeat (destruct H as [H|H]; [discriminate H|]). exact H.
Qed.

(** ** The [list] command *)

(** C8: for a plugin directory holding the files [cpu] and [memory],
    [listPlugins] returns the names joined by a space and a newline, and the
    [list] command prints that with one more newline, so that the client
    reads an empty line after the names. *)
Theorem C8_list_reply_has_blank_line :
  let sys := system [] "" in
  ReadDir sys (PluginFolder conf) = Some [regular "cpu"; regular "memory"]
  /\ listPlugins conf sys = "cpu memory" +:+ nl
  /\ handleLine conf sys "list" start
     = (start, "cpu memory" +:+ nl +:+ nl, true)
  /\ handleConnection conf sys ("list" +:+ nl) start
     = (start, "# munin node at node1" +:+ nl +:+ "cpu memory" +:+ nl +:+ nl).
Proof. vm_compute. repeat split; reflexivity. Qed.

(** ** Access control *)

Section AccessGuard.
Variable E : Engine.

Lemma cuts_spec s a b : In (a, b) (regexp.cuts s) <-> s = a +:+ b.
Proof.
  revert a b. induction s as [|c s IH]; intros a b; simpl.
  - split.
    + intros [[= <- <-]|[]]. reflexivity.
    + destruct a; [|discriminate]. rewrite app_empty_l. intros <-. by left.
  - rewrite in_map_iff. split.
    + intros [[= <- <-]|[[a' b'] [[= <- <-] Hin]]]; [reflexivity|].
      apply IH in Hin. by rewrite app_cons, <- Hin.
    + destruct a as [|c' a'].
      * rewrite app_empty_l. intros <-. by left.
      * rewrite app_cons. intros [= <- ->]. right. exists (a', b).
        split; [reflexivity|]. by apply IH.
Qed.

Lemma spans_spec s pre m post :
  In (pre, m, post) (regexp.spans s) <-> s = pre +:+ m +:+ post.
Proof.
  unfold regexp.spans. rewrite in_flat_map. split.
  - intros [[pre' rest] [Hcut Hin]]. apply cuts_spec in Hcut.
    apply in_map_iff in Hin as [[m' post'] [[= <- <- <-] Hin]].
    apply cuts_spec in Hin. by rewrite Hcut, Hin.
  - intros ->. exists (pre, m +:+ post). split; [by apply cuts_spec|].
    apply in_map_iff. exists (m, post). split; [reflexivity|].
    by apply cuts_spec.
Qed.

(** A compiled expression matches a string when it matches any substring of
    it, wherever the substring stands. *)
Lemma ReMatchString_spec (re : Regexp E) s :
  regexp.ReMatchString E re s = true
  <-> exists pre m post, s = pre +:+ m +:+ post /\ Match E re pre m post = true.
Proof.
  unfold regexp.ReMatchString. rewrite existsb_exists. split.
  - intros [[[pre m] post] [Hin Hm]]. apply spans_spec in Hin. eauto.
  - intros (pre & m & post & Hs & Hm). exists (pre, m, post).
    split; [by apply spans_spec|done].
Qed.

Lemma matches_spec s pattern :
  matches E s pattern = true
  <-> exists re pre m post,
        Compile E pattern = Ok re /\ s = pre +:+ m +:+ post
        /\ Match E re pre m post = true.
Proof.
  unfold matches, regexp.MatchString.
  destruct (Compile E pattern) as [re|err].
  - destruct (regexp.ReMatchString E re s) eqn:Hm.
    + apply ReMatchString_spec in Hm as (pre & m & post & ? & ?).
      split; [|done]. intros _. by exists re, pre, m, post.
    + split; [done|]. intros (re' & pre & m & post & [= <-] & Hs & Hmatch).
      assert (regexp.ReMatchString E re s = true) as Ht
        by (apply ReMatchString_spec; eauto).
      congruence.
  - split; [done|]. by intros (? & ? & ? & ? & ? & _).
Qed.

Lemma isAllowedIP_walk clientIP allowedPatterns :
  isAllowedIP E clientIP allowedPatterns
  = (existsb (matches E clientIP) allowedPatterns,
     malformedLog E (beforeFirstMatch E clientIP allowedPatterns)).
Proof.
  induction allowedPatterns as [|pattern rest IH]; [reflexivity|].
  simpl. rewrite IH. unfold matches, regexp.MatchString.
  destruct (Compile E pattern) as [re|err] eqn:Hc; simpl.
  - destruct (regexp.ReMatchString E re clientIP); simpl; [reflexivity|].
    by rewrite Hc.
  - by rewrite Hc.
Qed.

(** C7: [isAllowedIP] answers [true] exactly when some pattern of the list
    compiles and matches a substring of the address, wherever it stands;
    the patterns are tried in order up to the first that matches, and what
    is printed is one message for each pattern tried that does not compile,
    such a pattern being passed over; the empty list admits no address. *)
Theorem C7_isAllowedIP (clientIP : string) (allowedPatterns : list string) :
  (fst (isAllowedIP E clientIP allowedPatterns) = true
   <-> exists pattern re pre m post,
         In pattern allowedPatterns
         /\ Compile E pattern = Ok re
         /\ clientIP = pre +:+ m +:+ post
         /\ Match E re pre m post = true)
  /\ snd (isAllowedIP E clientIP allowedPatterns)
     = malformedLog E (beforeFirstMatch E clientIP allowedPatterns)
  /\ isAllowedIP E clientIP [] = (false, []).
Proof.
  rewrite isAllowedIP_walk. simpl. split; [|done].
  rewrite existsb_exists. split.
  - intros [pattern [Hin Hm]].
    apply matches_spec in Hm as (re & pre & m & post & ? & ? & ?).
    by exists pattern, re, pre, m, post.
  - intros (pattern & re & pre & m & post & Hin & ? & ? & ?).
    exists pattern. split; [done|]. apply matches_spec. eauto 10.
Qed.

End AccessGuard.

(** The examples of the specification, on the engine for the fragment: an
    anchored pattern, a pattern that finds its match inside the address
    behind one that does not compile, and the empty list. *)
Example isAllowedIP_examples :
  isAllowedIP fragmentEngine "192.168.1.5" ["^192\.168\.1\..*$"]
  = (true, [])
  /\ isAllowedIP fragmentEngine "10.0.0.9" ["^192\.168\.1\..*$"] = (false, [])
  /\ isAllowedIP fragmentEngine "10.0.0.9" ["*bad"; "0\.0"; "10"]
     = (true, ["Error in IP permission template: error parsing regexp: "
               +:+ "missing argument to repetition operator: `*`" +:+ nl])
  /\ isAllowedIP fragmentEngine "10.0.0.9" [] = (false, []).
Proof. vm_compute. repeat split; reflexivity. Qed.

(** ** Environment resolution *)

(** C9, as stated, fails: an [env.] line without a value that stands below
    no section is passed over, resolution succeeds and the plugin runs. *)
Lemma C9_counterexample :
  let file := "env.FOO" +:+ nl in
  let sys := system [("/plugins/cpu", regular "cpu")] file in
  configLines conf sys = ["env.FOO"]
  /\ envLineWithoutValue "env.FOO"
  /\ loadPluginConfig conf sys "cpu" start = (start, None)
  /\ snd (executePlugin conf sys "cpu" "" start)
     = Ok ("/plugins/cpu  SECRET=" +:+ nl).
Proof. vm_compute. repeat split; reflexivity. Qed.

(** Below a section that a header of [pre] opened, an [env.] line without
    a value makes [loadPluginConfig] fail. *)
Lemma invalid_line_fails conf sys plugin st pre text post :
  configLines conf sys = pre ++ text :: post ->
  Exists (opensSection (generatePossibleSections plugin)) pre ->
  envLineWithoutValue text ->
  exists err,
    snd (loadPluginConfig conf sys plugin st) = Some err
    /\ (err = InvalidFormat (strings.TrimSpace text)
        \/ snd (scanLoop (generatePossibleSections plugin) pre "" st)
           = Some err).
Proof.
  intros Hlines Hopen Henv.
  destruct (loadPluginConfig_scan conf sys plugin st) as [_ Herr].
  rewrite Hlines, scanLoop_app in Herr.
  destruct (scanLoop _ pre "" st) as [[st1 cur1] [err|]] eqn:Hpre.
  - exists err. split; [by apply Herr|by right].
  - exists (InvalidFormat (strings.TrimSpace text)).
    split; [|by left]. apply Herr. simpl.
    rewrite configLine_invalid; [done| |done].
    eapply scanLoop_open; [apply candidates_nonempty| |exact Hpre].
    by right.
Qed.

(** C9, amended: when the plugin-configuration file holds an [env.] line
    without a value in a section whose header names a candidate section of
    the plugin, resolution fails, with the error for an invalid line unless
    a line before it has already made it fail, and the invocation is
    aborted: [executePlugin] returns an error and runs no command. *)
Theorem C9_env_line_without_value (conf : NodeConfig) (sys : OS)
    (plugin option : string) (st : Proc) (before : list string)
    (header : string) (between : list string) (text : string)
    (post : list string) :
  configLines conf sys = before ++ header :: between ++ text :: post ->
  opensSection (generatePossibleSections plugin) header ->
  (forall line, In line between -> sectionHeader line = None) ->
  envLineWithoutValue text ->
  (exists err,
     snd (loadPluginConfig conf sys plugin st) = Some err
     /\ (err = InvalidFormat (strings.TrimSpace text)
         \/ snd (scanLoop (generatePossibleSections plugin)
                          (before ++ header :: between) "" st)
            = Some err))
  /\ (exists err, snd (executePlugin conf sys plugin option st) = Err err)
  /\ commands (fst (executePlugin conf sys plugin option st)) = commands st.
Proof.
  intros Hlines Hopen _ Henv.
  assert (exists err,
     snd (loadPluginConfig conf sys plugin st) = Some err
     /\ (err = InvalidFormat (strings.TrimSpace text)
         \/ snd (scanLoop (generatePossibleSections plugin)
                          (before ++ header :: between) "" st)
            = Some err)) as Hfail.
  { apply (invalid_line_fails conf sys plugin st
                               (before ++ header :: between) text post).
    - rewrite Hlines, <- app_assoc. reflexivity.
    - apply Exists_app. right. by apply Exists_cons_hd.
    - done. }
  split; [exact Hfail|]. destruct Hfail as (err & Hfail & _).
  pose proof (loadPluginConfig_effect conf sys plugin st) as [Hcmd _].
  unfold executePlugin.
  destruct (validatePluginPath _ _ _); [by eauto|].
  destruct (loadPluginConfig conf sys plugin st) as [st1 res].
  simpl in Hfail. subst res. by eauto.
Qed.

Lemma C9_env_line_without_value_witness :
  let sys := system [("/plugins/cpu", regular "cpu")]
                    ("# all plugins" +:+ nl +:+ "[*]" +:+ nl
                     +:+ "env.LANG C" +:+ nl +:+ "env.FOO" +:+ nl) in
  (exists err,
     snd (loadPluginConfig conf sys "cpu" start) = Some err
     /\ (err = InvalidFormat (strings.TrimSpace "env.FOO")
         \/ snd (scanLoop (generatePossibleSections "cpu")
                          (["# all plugins"] ++ "[*]" :: ["env.LANG C"])
                          "" start)
            = Some err))
  /\ (exists err, snd (executePlugin conf sys "cpu" "" start) = Err err)
  /\ commands (fst (executePlugin conf sys "cpu" "" start)) = commands start.
Proof.
  apply (C9_env_line_without_value conf _ "cpu" "" start ["# all plugins"]
           "[*]" ["env.LANG C"] "env.FOO" []).
  - reflexivity.
  - exists "*". split; [reflexivity|]. vm_compute. tauto.
  - intros line [<-|[]]. reflexivity.
  - split; reflexivity.
Defined.

(** C10, as stated, fails for the plugin named [*]: its own name is the
    first candidate, so the header [[*]] opens a section and the assignment
    below it is made. The same holds for a name that ends in [_*]. And for
    [diskio_sda] the lines below the header [[diskio_sda]] are taken when a
    candidate section was opened before it, since that section stays
    open. *)
Lemma C10_counterexample :
  let sys := system [] ("[*]" +:+ nl +:+ "env.A 1" +:+ nl) in
  let sys' := system [] ("[*]" +:+ nl +:+ "[diskio_sda]" +:+ nl
                         +:+ "env.B 2" +:+ nl) in
  In "*" (generatePossibleSections "*")
  /\ In "a_*" (generatePossibleSections "a_*")
  /\ sectionHeader "[*]" = Some "*"
  /\ configLine (generatePossibleSections "*") "[*]" "" start
     = (start, "*", None)
  /\ environ (fst (loadPluginConfig conf sys "*" start)) = <["A" := "1"]> ∅
  /\ environ (fst (loadPluginConfig conf sys' "diskio_sda" start))
     = <["B" := "2"]> ∅.
Proof. vm_compute. repeat split; try reflexivity; tauto. Qed.

(** C10, amended: every candidate section is ["*"] or ends in ["_*"]; so
    for a plugin whose name is not ["*"] and does not end in ["_*"], the
    name is no candidate, a header that names the plugin opens no section,
    and a plugin-configuration file whose headers name the plugin or
    another section that is no candidate leaves the process as it was: no
    variable is set. *)
Theorem C10_own_name_is_no_section (plugin : string) (conf : NodeConfig)
    (sys : OS) (st : Proc) :
  plugin <> "*" ->
  strings.HasSuffix plugin "_*" = false ->
  (forall text section,
     In text (configLines conf sys) ->
     sectionHeader text = Some section ->
     section = plugin \/ ~ In section (generatePossibleSections plugin)) ->
  (forall section,
     In section (generatePossibleSections plugin) ->
     section = "*" \/ strings.HasSuffix section "_*" = true)
  /\ ~ In plugin (generatePossibleSections plugin)
  /\ (forall text,
        sectionHeader text = Some plugin ->
        configLine (generatePossibleSections plugin) text "" st
        = (st, "", None))
  /\ fst (loadPluginConfig conf sys plugin st) = st.
Proof.
  intros Hstar Hsuf Hheaders.
  assert (forall section,
            In section (generatePossibleSections plugin) ->
            section = "*" \/ strings.HasSuffix section "_*" = true) as Hform.
  { intros section [->|[stem ->]]%candidates_form; [by left|right].
    apply HasSuffix_app. }
  assert (~ In plugin (generatePossibleSections plugin)) as Hnot.
  { intros [?|?]%Hform; congruence. }
  repeat split; [exact Hform|exact Hnot| |].
  - intros text Hh. rewrite (configLine_header _ _ _ _ _ Hh).
    by rewrite matchSection_notin.
  - destruct (loadPluginConfig_scan conf sys plugin st) as [-> _].
    rewrite scanLoop_closed; [done|].
    intros text Hin (section & Hh & Hsec).
    destruct (Hheaders text section Hin Hh) as [->|Hn]; [exact (Hnot Hsec)|].
    exact (Hn Hsec).
Qed.

Lemma C10_own_name_is_no_section_witness :
  let sys := system [] ("[diskio_sda]" +:+ nl +:+ "env.A 1" +:+ nl) in
  (forall section,
     In section (generatePossibleSections "diskio_sda") ->
     section = "*" \/ strings.HasSuffix section "_*" = true)
  /\ ~ In "diskio_sda" (generatePossibleSections "diskio_sda")
  /\ (forall text,
        sectionHeader text = Some "diskio_sda" ->
        configLine (generatePossibleSections "diskio_sda") text "" start
        = (start, "", None))
  /\ fst (loadPluginConfig conf sys "diskio_sda" start) = start.
Proof.
  apply (C10_own_name_is_no_section "diskio_sda" conf _ start).
  - discriminate.
  - reflexivity.
  - intros text section Hin Hh. left. vm_compute in Hin.
    destruct Hin as [<-|[<-|[]]]; vm_compute in Hh; congruence.
Defined.

(** C2, as stated, fails: the assignment resolved for [cpu] is written to
    the environment table of the process, stays there, and is seen by the
    plugin [memory] run afterwards, for which the file assigns nothing. *)
Lemma C2_counterexample :
  let file := "[cpu_*]" +:+ nl +:+ "env.SECRET 1" +:+ nl in
  let sys := system [("/plugins/cpu", regular "cpu");
                     ("/plugins/memory", regular "memory")] file in
  let st1 := fst (executePlugin conf sys "cpu" "" start) in
  environ st1 <> environ start
  /\ environ st1 = <["SECRET" := "1"]> ∅
  /\ snd (executePlugin conf sys "memory" "" start)
     = Ok ("/plugins/memory  SECRET=" +:+ nl)
  /\ snd (executePlugin conf sys "memory" "" st1)
     = Ok ("/plugins/memory  SECRET=1" +:+ nl).
Proof.
  cbv zeta. split; [|vm_compute; repeat split; reflexivity].
  intros H. apply (f_equal (fun env => env !! "SECRET")) in H.
  vm_compute in H. discriminate H.
Qed.

(** ** Replies to [config] and [fetch] *)

(** C6, as stated, fails: the output of a plugin is written as it is and
    the dot follows it at once, so after an output that does not end with a
    newline the dot stands at the end of the last line of the plugin. *)
Lemma C6_counterexample :
  let sys := printing "cpu.value 1"
                      (system [("/plugins/cpu", regular "cpu")] "") in
  snd (fst (handleLine conf sys "fetch cpu" start)) = "cpu.value 1." +:+ nl
  /\ endsWithDotLine (snd (fst (handleLine conf sys "fetch cpu" start)))
     = false
  /\ snd (fst (handleLine conf sys "config cpu" start)) = "cpu.value 1." +:+ nl
  /\ endsWithDotLine (snd (fst (handleLine conf sys "config cpu" start)))
     = false.
Proof. vm_compute. repeat split; reflexivity. Qed.

(** C6, amended: the reply to [config <plugin>] and to [fetch <plugin>] is
    the output of the plugin followed by a dot and a newline, which ends
    with a line holding only the dot whenever the output is empty or ends
    with a newline; and when the plugin cannot be run the reply is the line
    [# Unknown service] and a line holding only the dot. *)
Theorem C6_reply_ends_with_dot_line (conf : NodeConfig) (sys : OS)
    (line cmd : string) (args : list string) (option : string) (st : Proc) :
  strings.Fields line = cmd :: args ->
  (cmd = "config" /\ option = "config") \/ (cmd = "fetch" /\ option = "") ->
  let reply := snd (fst (handleLine conf sys line st)) in
  match snd (executePlugin conf sys (hd "" args) option st) with
  | Ok output =>
    reply = output +:+ "." +:+ bytes [10]
    /\ (output = "" \/ strings.HasSuffix output (bytes [10]) = true ->
        endsWithDotLine reply = true)
  | Err _ =>
    reply = "# Unknown service" +:+ bytes [10] +:+ "." +:+ bytes [10]
    /\ endsWithDotLine reply = true
  end.
Proof.
  intros Hfields Hcmd reply. subst reply.
  assert (forall cmd',
            snd (pluginReply conf sys cmd' (hd "" args) option st)
            = if (1 <? String.length cmd')%nat then
                match snd (executePlugin conf sys (hd "" args) option st) with
                | Ok output => output +:+ "." +:+ bytes [10]
                | Err _ =>
                  "# Unknown service" +:+ bytes [10] +:+ "." +:+ bytes [10]
                end
              else "# Unknown service" +:+ bytes [10] +:+ "." +:+ bytes [10]
                   +:+ bytes [10]) as Hreply.
  { intros cmd'. unfold pluginReply. destruct (_ <? _)%nat; [|done].
    by destruct (executePlugin _ _ _ _ _) as [st' [output|err]]. }
  assert (snd (fst (handleLine conf sys line st))
          = match snd (executePlugin conf sys (hd "" args) option st) with
            | Ok output => output +:+ "." +:+ bytes [10]
            | Err _ =>
              "# Unknown service" +:+ bytes [10] +:+ "." +:+ bytes [10]
            end) as ->.
  { unfold handleLine. rewrite Hfields.
    replace (match args with [] => "" | a :: _ => a end) with (hd "" args)
      by by destruct args.
    destruct Hcmd as [[-> ->]|[-> ->]]; cbn [String.eqb Ascii.eqb Bool.eqb].
    - specialize (Hreply "config").
      destruct (pluginReply _ _ "config" _ _ _). exact Hreply.
    - specialize (Hreply "fetch").
      destruct (pluginReply _ _ "fetch" _ _ _). exact Hreply. }
  destruct (snd (executePlugin _ _ _ _ _)) as [output|err].
  - split; [done|]. intros [->|Hnl].
    + reflexivity.
    + apply HasSuffix_inv in Hnl as [t ->]. unfold endsWithDotLine.
      rewrite app_assoc', HasSuffix_app. apply orb_true_r.
  - split; reflexivity.
Qed.

Lemma C6_reply_ends_with_dot_line_witness :
  let sys := system [("/plugins/cpu", regular "cpu")] "" in
  let reply := snd (fst (handleLine conf sys "fetch cpu" start)) in
  match snd (executePlugin conf sys (hd "" ["cpu"]) "" start) with
  | Ok output =>
    reply = output +:+ "." +:+ bytes [10]
    /\ (output = "" \/ strings.HasSuffix output (bytes [10]) = true ->
        endsWithDotLine reply = true)
  | Err _ =>
    reply = "# Unknown service" +:+ bytes [10] +:+ "." +:+ bytes [10]
    /\ endsWithDotLine reply = true
  end.
Proof.
  apply (C6_reply_ends_with_dot_line conf _ "fetch cpu" "fetch" ["cpu"] ""
                                     start).
  - reflexivity.
  - right. split; reflexivity.
Defined.

(** ** More facts about byte strings *)

Section MoreStringFacts.
Implicit Types s t key rest : string.

Lemma substring_0_app s t : substring 0 (String.length s) (s +:+ t) = s.
Proof.
  induction s as [|c s IH].
  - by destruct t.
  - rewrite app_cons. simpl. by rewrite IH.
Qed.

Lemma sliceFrom_app s t : sliceFrom (s +:+ t) (String.length s) = t.
Proof.
  unfold sliceFrom. rewrite length_app, substring_skip.
  replace (String.length s + String.length t - String.length s)
    with (String.length t) by lia.
  apply substring_all.
Qed.

Lemma HasPrefix_app s t : strings.HasPrefix (s +:+ t) s = true.
Proof.
  unfold strings.HasPrefix. induction s as [|c s IH].
  - by destruct t.
  - rewrite app_cons. simpl. by destruct (ascii_dec c c).
Qed.

(** The first occurrence of a byte that [key] does not hold. *)
Lemma Index_byte key c rest :
  os.hasByte c key = false ->
  strings.Index (key +:+ String c rest) (String c "")
  = Some (String.length key).
Proof.
  unfold strings.Index. induction key as [|c' key IH].
  - intros _. rewrite app_empty_l. simpl.
    destruct (ascii_dec c c); [|done]. by destruct rest.
  - intros Hkey. simpl in Hkey. apply orb_false_elim in Hkey as [Hc Hkey].
    rewrite app_cons. simpl.
    destruct (ascii_dec c c') as [->|_].
    + by rewrite Ascii.eqb_refl in Hc.
    + by rewrite (IH Hkey).
Qed.

(** Cutting at the first space. *)
Lemma SplitN_space key rest :
  os.hasByte " " key = false ->
  strings.SplitN (key +:+ " " +:+ rest) " " 2 = [key; rest].
Proof.
  intros Hkey. unfold strings.SplitN, strings.genSplit.
  change (key +:+ " " +:+ rest) with (key +:+ String " " rest).
  rewrite (Index_byte _ _ _ Hkey). unfold slice.
  rewrite Nat.sub_0_r, substring_0_app. f_equal. f_equal.
  change (key +:+ String " " rest) with (key +:+ " " +:+ rest).
  rewrite <- app_assoc'.
  replace (String.length key + String.length " ")
    with (String.length (key +:+ " ")) by by rewrite length_app.
  apply sliceFrom_app.
Qed.

Lemma SplitN_no_space s :
  strings.Index s " " = None -> strings.SplitN s " " 2 = [s].
Proof. intros H. unfold strings.SplitN, strings.genSplit. by rewrite H. Qed.

Lemma last_default_app (l1 l2 : list string) d :
  List.last (l1 ++ l2) d = List.last l2 (List.last l1 d).
Proof.
  destruct l2 as [|z l2 _] using rev_ind.
  - by rewrite app_nil_r.
  - by rewrite app_assoc, !List.last_last.
Qed.

End MoreStringFacts.

(** ** The node configuration *)

Section NodeConfiguration.
Implicit Types (nodeConf : NodeConfig) (lines : list string).

Lemma valuesOf_one key text :
  valuesOf key [text]
  = match directive text with
    | Some (k, v) => if String.eqb k key then [v] else []
    | None => []
    end.
Proof. unfold valuesOf. cbn [flat_map]. by rewrite app_nil_r. Qed.

(** What a line does to each setting, through the directive it gives. *)
Lemma nodeConfigLine_fields text nodeConf :
  let conf' := nodeConfigLine text nodeConf in
  HostName conf' = lastOr (HostName nodeConf) (valuesOf "host_name" [text])
  /\ AllowedIPs conf' = AllowedIPs nodeConf ++ valuesOf "allow" [text]
  /\ Host conf'
     = lastOr (Host nodeConf)
         (map (fun v => if String.eqb v "*" then "" else v)
              (valuesOf "host" [text]))
  /\ Port conf' = lastOr (Port nodeConf) (valuesOf "port" [text])
  /\ PluginFolder conf'
     = lastOr (PluginFolder nodeConf) (valuesOf "plugins" [text])
  /\ PluginConfig conf'
     = lastOr (PluginConfig nodeConf) (valuesOf "plugins_config" [text]).
Proof.
  cbv zeta. rewrite !valuesOf_one.
  unfold nodeConfigLine, directive, lastOr. cbv zeta.
  generalize (strings.SplitN (strings.TrimSpace text) " " 2).
  intros parts. destruct (_ || _); simpl; [by rewrite app_nil_r|].
  destruct parts as [|key [|value [|? ?]]]; simpl;
    try by rewrite app_nil_r.
  destruct (String.eqb_spec key "host_name") as [->|_];
    [by rewrite app_nil_r|].
  destruct (String.eqb_spec key "allow") as [->|_]; [done|].
  destruct (String.eqb_spec key "host") as [->|_];
    [by rewrite app_nil_r|].
  destruct (String.eqb_spec key "port") as [->|_];
    [by rewrite app_nil_r|].
  destruct (String.eqb_spec key "plugins") as [->|_];
    [by rewrite app_nil_r|].
  destruct (String.eqb_spec key "plugins_config") as [->|_];
    by rewrite app_nil_r.
Qed.

Lemma valuesOf_cons key text lines :
  valuesOf key (text :: lines) = valuesOf key [text] ++ valuesOf key lines.
Proof. unfold valuesOf. simpl. by rewrite app_nil_r. Qed.

(** What the scanning loop does to each setting. *)
Lemma nodeConfig_fold lines nodeConf :
  let conf' :=
    fold_left (fun conf text => nodeConfigLine text conf) lines nodeConf in
  HostName conf' = lastOr (HostName nodeConf) (valuesOf "host_name" lines)
  /\ AllowedIPs conf' = AllowedIPs nodeConf ++ valuesOf "allow" lines
  /\ Host conf'
     = lastOr (Host nodeConf)
         (map (fun v => if String.eqb v "*" then "" else v)
              (valuesOf "host" lines))
  /\ Port conf' = lastOr (Port nodeConf) (valuesOf "port" lines)
  /\ PluginFolder conf'
     = lastOr (PluginFolder nodeConf) (valuesOf "plugins" lines)
  /\ PluginConfig conf'
     = lastOr (PluginConfig nodeConf) (valuesOf "plugins_config" lines).
Proof.
  revert nodeConf. induction lines as [|text lines IH]; intros nodeConf.
  - simpl. by rewrite app_nil_r.
  - cbv zeta. simpl fold_left.
    destruct (IH (nodeConfigLine text nodeConf))
      as (-> & -> & -> & -> & -> & ->).
    destruct (nodeConfigLine_fields text nodeConf)
      as (-> & -> & -> & -> & -> & ->).
    rewrite !(valuesOf_cons _ text lines), map_app. unfold lastOr.
    rewrite !last_default_app, <- app_assoc. done.
Qed.

Lemma readNodeConfig_fold sys configPath nodeConf :
  fst (readNodeConfig sys configPath nodeConf)
  = fold_left (fun conf text => nodeConfigLine text conf)
              (nodeConfigLines sys configPath) nodeConf.
Proof.
  unfold readNodeConfig, nodeConfigLines.
  destruct (Open sys configPath) as [file|]; [|done].
  by destruct (scanFile file).
Qed.

(** X1: the patterns of the [allow] directives are added to the list of
    allowed addresses in the order of the file, after those the list
    held. *)
Theorem readNodeConfig_allow (sys : OS) (configPath : string)
    (nodeConf : NodeConfig) :
  AllowedIPs (fst (readNodeConfig sys configPath nodeConf))
  = AllowedIPs nodeConf
    ++ valuesOf "allow" (nodeConfigLines sys configPath).
Proof.
  rewrite readNodeConfig_fold.
  by destruct (nodeConfig_fold (nodeConfigLines sys configPath) nodeConf)
    as (_ & -> & _).
Qed.

(** X2: each of the settings [host_name], [host], [port], [plugins] and
    [plugins_config] has, after the file is read, the value of the last
    directive for it, and the value it had when there is none; the value
    [*] of [host] stands for the empty host. *)
Theorem readNodeConfig_last_directive (sys : OS) (configPath : string)
    (nodeConf : NodeConfig) :
  let lines := nodeConfigLines sys configPath in
  let conf' := fst (readNodeConfig sys configPath nodeConf) in
  HostName conf' = lastOr (HostName nodeConf) (valuesOf "host_name" lines)
  /\ Host conf'
     = lastOr (Host nodeConf)
         (map (fun v => if String.eqb v "*" then "" else v)
              (valuesOf "host" lines))
  /\ Port conf' = lastOr (Port nodeConf) (valuesOf "port" lines)
  /\ PluginFolder conf'
     = lastOr (PluginFolder nodeConf) (valuesOf "plugins" lines)
  /\ PluginConfig conf'
     = lastOr (PluginConfig nodeConf) (valuesOf "plugins_config" lines).
Proof.
  cbv zeta. rewrite readNodeConfig_fold.
  destruct (nodeConfig_fold (nodeConfigLines sys configPath) nodeConf)
    as (? & _ & ? & ? & ? & ?).
  done.
Qed.

(** X3: an [allow] line adds to the list of patterns all that follows its
    first space, as it stands: spaces that follow the first one belong to
    the pattern. *)
Theorem allow_line_pattern (text pattern : string) (nodeConf : NodeConfig) :
  strings.TrimSpace text = "allow " +:+ pattern ->
  AllowedIPs (nodeConfigLine text nodeConf) = AllowedIPs nodeConf ++ [pattern].
Proof.
  intros Hline. unfold nodeConfigLine. cbv zeta. rewrite Hline.
  change ("allow " +:+ pattern) with ("allow" +:+ " " +:+ pattern).
  rewrite SplitN_space; reflexivity.
Qed.

Lemma allow_line_pattern_witness :
  AllowedIPs (nodeConfigLine "  allow   ^10\.0\.  " emptyConfig)
  = AllowedIPs emptyConfig ++ ["  ^10\.0\."].
Proof.
  apply (allow_line_pattern "  allow   ^10\.0\.  " "  ^10\.0\." emptyConfig).
  reflexivity.
Defined.

(** X4: [readNodeConfig] fails in these cases and no other: the file
    cannot be opened, and then the configuration is left as it was;
    reading the file ends with an error; a line is too long for the
    scanner. No line, whatever it holds, is refused. *)
Theorem readNodeConfig_fails_iff (sys : OS) (configPath : string)
    (nodeConf : NodeConfig) :
  (snd (readNodeConfig sys configPath nodeConf) = Some CouldNotOpen
   <-> Open sys configPath = None)
  /\ (snd (readNodeConfig sys configPath nodeConf) = Some ErrorReading
      <-> exists file,
            Open sys configPath = Some file
            /\ (ReadFails file = true
                \/ snd (bufio.Lines bufio.MaxScanTokenSize (Bytes file))
                   = true))
  /\ (Open sys configPath = None ->
      fst (readNodeConfig sys configPath nodeConf) = nodeConf).
Proof.
  unfold readNodeConfig, scanFile.
  destruct (Open sys configPath) as [file|].
  - destruct (bufio.Lines _ (Bytes file)) as [lines tooLong] eqn:Hlines.
    simpl. split; [split; [by destruct (tooLong || _)|done]|].
    split; [|done]. split.
    + destruct (tooLong || ReadFails file) eqn:Hfailed; [|done].
      intros _. exists file. split; [done|].
      rewrite Hlines. simpl.
      apply orb_true_iff in Hfailed. tauto.
    + intros (file' & [= <-] & Hfailed). rewrite Hlines in Hfailed.
      simpl in Hfailed.
      assert (tooLong || ReadFails file = true) as ->; [|done].
      apply orb_true_iff. tauto.
  - simpl. split; [by split|]. split; [|done].
    split; [done|]. by intros (? & ? & _).
Qed.

End NodeConfiguration.

(** A configuration path that names a directory: it opens, and the first
    read fails. [readNodeConfig] and [loadPluginConfig] report a read
    error. *)
Example read_failure_example :
  let dir := {| Bytes := ""; ReadFails := true |} in
  let sys := {| Getwd := Some "/"; Lstat := fun _ => None;
                ReadDir := fun _ => None; Open := fun _ => Some dir;
                Output := fun _ _ _ => None |} in
  readNodeConfig sys nodeConfigPath emptyConfig
  = (emptyConfig, Some ErrorReading)
  /\ loadPluginConfig conf sys "cpu" start = (start, Some FileReadError).
Proof. vm_compute. split; reflexivity. Qed.

(** The node configuration of the fixtures, read at startup. *)
Example readNodeConfig_example :
  readNodeConfig Startup.sys nodeConfigPath emptyConfig
  = ({| HostName := "node1";
        AllowedIPs := ["^127\.0\.0\.1$"; "^192\.168\.1\..*$"];
        Host := ""; Port := "  4950"; PluginFolder := "/plugins";
        PluginConfig := "/etc/munin/plugin-conf" |}, None).
Proof. vm_compute. reflexivity. Qed.

(** ** Access control, continued *)

Section AccessGuardMore.
Variable E : Engine.

(** X5: the patterns of two lists put one after the other are tried as
    those of the first list and then, unless one of them matched, those of
    the second; nothing is printed for the second list after a match in
    the first. *)
Theorem isAllowedIP_app (clientIP : string) (ps qs : list string) :
  isAllowedIP E clientIP (ps ++ qs)
  = let '(allowed, printed) := isAllowedIP E clientIP ps in
    if allowed then (true, printed)
    else let '(allowed', printed') := isAllowedIP E clientIP qs in
         (allowed', printed ++ printed').
Proof.
  induction ps as [|pattern ps IH]; simpl.
  - by destruct (isAllowedIP E clientIP qs).
  - destruct (regexp.MatchString E pattern clientIP) as [[|]|err];
      [done|exact IH|].
    rewrite IH. destruct (isAllowedIP E clientIP ps) as [[|] printed];
      [done|].
    by destruct (isAllowedIP E clientIP qs).
Qed.

Lemma existsb_Permutation {A} (f : A -> bool) (l1 l2 : list A) :
  Permutation l1 l2 -> existsb f l1 = existsb f l2.
Proof.
  induction 1 as [|x l1 l2 _ IH|x y l|l1 l2 l3 _ IH1 _ IH2]; simpl.
  - done.
  - by rewrite IH.
  - by destruct (f x), (f y).
  - by rewrite IH1.
Qed.

(** X6: the verdict does not depend on the order of the patterns. *)
Theorem isAllowedIP_order (clientIP : string) (ps qs : list string) :
  Permutation ps qs ->
  fst (isAllowedIP E clientIP ps) = fst (isAllowedIP E clientIP qs).
Proof.
  intros Hperm. rewrite !isAllowedIP_walk. simpl.
  by apply existsb_Permutation.
Qed.

End AccessGuardMore.

Lemma isAllowedIP_order_witness :
  fst (isAllowedIP fragmentEngine "10.0.0.9" ["^192\."; "*"; "^10\."])
  = fst (isAllowedIP fragmentEngine "10.0.0.9" ["^10\."; "^192\."; "*"]).
Proof.
  apply isAllowedIP_order. symmetry.
  apply (Permutation_cons_app ["^192\."; "*"] [] "^10\."). reflexivity.
Defined.

(** ** Admission of a connection *)

(** X7: a connection is served exactly when [isAllowedIP] admits the host
    part of its remote address: then the client gets what [handleConnection]
    writes, which starts with the banner; otherwise nothing is written to
    it, not even the banner, the refusal is printed, and the process is left
    as it was. With no [allow] pattern every connection is refused. *)
Theorem acceptTurn_gate (E : Engine) (conf : NodeConfig) (sys : OS)
    (remoteAddr input : string) (st : Proc) :
  let clientIP := clientIPOf remoteAddr in
  let verdict := isAllowedIP E clientIP (AllowedIPs conf) in
  let turn := acceptTurn E conf sys remoteAddr input st in
  (if fst verdict then
     fst turn = handleConnection conf sys input st
     /\ strings.HasPrefix (snd (fst turn)) (banner conf) = true
     /\ snd turn = snd verdict
   else
     turn = (st, "",
             snd verdict
             ++ ["Access denied for IP: " +:+ clientIP +:+ bytes [10]]))
  /\ (AllowedIPs conf = [] -> fst verdict = false).
Proof.
  cbv zeta. split; [|by intros ->].
  unfold acceptTurn. fold (clientIPOf remoteAddr).
  destruct (isAllowedIP E (clientIPOf remoteAddr) (AllowedIPs conf))
    as [[|] printed]; simpl; [|done].
  unfold handleConnection. fold (banner conf).
  destruct (bufio.Lines lineMax input) as [lines tooLong].
  destruct (serve conf sys lines st) as [st' out]. simpl.
  repeat split. apply HasPrefix_app.
Qed.

(** ** The [list] command, continued *)

(** X8: a line whose command is [list] is answered, whatever follows the
    command, by the names of the entries of the plugin directory that are
    no directories, in the order of the directory, joined by spaces, and
    two newlines; when the directory cannot be read the answer is one
    empty line. The process is left as it was and the session goes on. *)
Theorem list_reply_always (conf : NodeConfig) (sys : OS) (line : string)
    (args : list string) (st : Proc) :
  strings.Fields line = "list" :: args ->
  handleLine conf sys line st
  = (st,
     match ReadDir sys (PluginFolder conf) with
     | Some files =>
       strings.Join (pluginNames files) " " +:+ bytes [10] +:+ bytes [10]
     | None => bytes [10]
     end,
     true).
Proof.
  intros Hfields. unfold handleLine. rewrite Hfields.
  cbn [String.eqb Ascii.eqb Bool.eqb]. unfold listPlugins, Fprintln.
  destruct (ReadDir sys (PluginFolder conf)) as [files|]; [|done].
  by rewrite collect_plugins, app_assoc'.
Qed.

Lemma list_reply_always_witness :
  handleLine conf (system [] "") "list  now" start
  = (start,
     match ReadDir (system [] "") (PluginFolder conf) with
     | Some files =>
       strings.Join (pluginNames files) " " +:+ bytes [10] +:+ bytes [10]
     | None => bytes [10]
     end,
     true).
Proof.
  apply (list_reply_always conf (system [] "") "list  now" ["now"] start).
  reflexivity.
Defined.

(** ** Candidate sections, continued *)

Section SplitJoin.
Implicit Types (s sep : string) (l : list string).

Lemma substring_add s m a b :
  substring m (a + b) s = substring m a s +:+ substring (m + a) b s.
Proof.
  revert m a. induction s as [|c s IH]; intros m a.
  - by destruct m, a, b.
  - destruct m as [|m]; [|exact (IH m a)].
    destruct a as [|a]; [done|].
    simpl. rewrite app_cons. f_equal. exact (IH 0 a).
Qed.

Lemma substring_add0 s a b :
  substring 0 (a + b) s = substring 0 a s +:+ substring a b s.
Proof. exact (substring_add s 0 a b). Qed.

Lemma length_substring s m k :
  String.length (substring m k s) <= String.length s - m.
Proof.
  revert m k. induction s as [|c s IH]; intros m k.
  - by destruct m, k.
  - destruct m as [|m]; [|exact (IH m k)].
    destruct k as [|k]; simpl; [lia|]. specialize (IH 0 k). lia.
Qed.

(** A string is what stands before an occurrence of the separator, the
    separator, and what stands after it. *)
Lemma cut_at_Index s sep m :
  sep <> "" ->
  strings.Index s sep = Some m ->
  s = slice s 0 m +:+ sep +:+ sliceFrom s (m + String.length sep).
Proof.
  intros Hsep Hidx. apply index_correct1 in Hidx.
  pose proof (length_substring s m (String.length sep)) as Hlen.
  rewrite Hidx in Hlen.
  assert (0 < String.length sep) by (destruct sep; [done|simpl; lia]).
  unfold slice, sliceFrom. rewrite Nat.sub_0_r.
  transitivity
    (substring 0 m s +:+ substring m (String.length sep) s
     +:+ substring (m + String.length sep)
                   (String.length s - (m + String.length sep)) s);
    [|by rewrite Hidx].
  rewrite <- (substring_add s m), <- (substring_add0 s).
  replace (m + (String.length sep
                + (String.length s - (m + String.length sep))))
    with (String.length s) by lia.
  by rewrite substring_all.
Qed.

Lemma genSplit_cons n s sep : exists e l, strings.genSplit n s sep = e :: l.
Proof.
  destruct n as [|n]; simpl; [by eauto|].
  destruct (strings.Index s sep); by eauto.
Qed.

Lemma Join_cons e l sep :
  l <> [] -> strings.Join (e :: l) sep = e +:+ sep +:+ strings.Join l sep.
Proof. by destruct l. Qed.

(** Joining the pieces of a split gives the string back. *)
Lemma Join_genSplit n s sep :
  sep <> "" -> strings.Join (strings.genSplit n s sep) sep = s.
Proof.
  intros Hsep. revert s. induction n as [|n IH]; intros s; [done|].
  simpl. destruct (strings.Index s sep) as [m|] eqn:Hidx; [|done].
  destruct (genSplit_cons n (sliceFrom s (m + String.length sep)) sep)
    as (e & l & Hl).
  rewrite Join_cons; [|by rewrite Hl].
  rewrite IH. symmetry. by apply cut_at_Index.
Qed.

(** The join of the first pieces starts the join of all of them. *)
Lemma Join_firstn l sep i :
  0 < i ->
  exists t, strings.Join l sep = strings.Join (firstn i l) sep +:+ t.
Proof.
  revert i. induction l as [|e l IH]; intros i Hi.
  - exists "". by destruct i.
  - destruct i as [|i]; [lia|]. destruct l as [|x l].
    + exists "". destruct i; simpl; by rewrite app_empty_r.
    + destruct i as [|i].
      * eexists. rewrite Join_cons; [|done]. reflexivity.
      * destruct (IH (S i)) as [t Ht]; [lia|]. exists t.
        rewrite Join_cons; [|done].
        change (firstn (S (S i)) (e :: x :: l))
          with (e :: firstn (S i) (x :: l)).
        rewrite (Join_cons e (firstn (S i) (x :: l))); [|by simpl].
        rewrite Ht. by rewrite !app_assoc'.
Qed.

End SplitJoin.

(** X9: the candidate that follows ["*"] is the name of the plugin followed
    by ["_*"], and every candidate after ["*"] is made of a string that
    starts the name of the plugin followed by ["_*"]: a section can apply
    to a plugin only if the name of the plugin starts as the section
    does. *)
Theorem candidates_start_the_name (plugin : string) :
  exists rest,
    generatePossibleSections plugin = "*" :: (plugin +:+ "_*") :: rest
    /\ Forall (fun section =>
                 exists stem, section = stem +:+ "_*"
                              /\ strings.HasPrefix plugin stem = true)
              ((plugin +:+ "_*") :: rest).
Proof.
  unfold generatePossibleSections. rewrite sectionsLoop_spec.
  pose proof (Join_genSplit (String.length plugin) plugin "_") as Hjoin.
  fold (strings.Split plugin "_") in Hjoin.
  set (parts := strings.Split plugin "_") in *.
  destruct (genSplit_cons (String.length plugin) plugin "_")
    as (e & l & Hparts).
  fold (strings.Split plugin "_") in Hparts. fold parts in Hparts.
  assert (List.length parts = S (List.length l)) as -> by by rewrite Hparts.
  rewrite seq_S, rev_app_distr. simpl.
  exists (map (candidate parts) (rev (seq 1 (List.length l)))).
  assert (candidate parts (S (List.length l)) = plugin +:+ "_*") as ->.
  { unfold candidate. rewrite firstn_all2; [|rewrite Hparts; simpl; lia].
    by rewrite Hjoin. }
  split; [done|]. constructor.
  - exists plugin. split; [done|]. rewrite <- (app_empty_r plugin) at 1.
    apply HasPrefix_app.
  - apply List.Forall_forall. intros section [i [<- Hi]]%in_map_iff.
    apply in_rev, in_seq in Hi.
    destruct (Join_firstn parts "_" i) as [t Ht]; [lia|].
    exists (strings.Join (firstn i parts) "_"). split; [done|].
    rewrite <- Hjoin by done. rewrite Ht. apply HasPrefix_app.
Qed.

(** ** The scanning loop, continued *)

Section ScanningLoopMore.
Implicit Types (secs lines : list string) (st : Proc).
Implicit Types text cur : string.

Lemma matchSection_existsb secs section cur :
  matchSection secs section cur
  = if existsb (String.eqb section) secs then section else cur.
Proof.
  induction secs as [|sec secs IH]; simpl; [done|].
  by destruct (String.eqb section sec).
Qed.

(** X10: when the loop goes through all the lines, the section that is
    current at the end is the one named by the last header that names a
    candidate, whatever headers follow it, and the one it started with when
    no header names a candidate. *)
Theorem scanLoop_current_section (secs lines : list string) (cur : string)
    (st : Proc) :
  snd (scanLoop secs lines cur st) = None ->
  snd (fst (scanLoop secs lines cur st)) = lastOpened secs lines cur.
Proof.
  revert cur st. induction lines as [|text lines IH]; intros cur st; [done|].
  simpl.
  destruct (configLine secs text cur st) as [[st1 cur1] [err|]] eqn:Hl;
    [done|].
  intros Hok. rewrite (IH cur1 st1 Hok). f_equal.
  destruct (sectionHeader text) as [section|] eqn:Hh.
  - rewrite (configLine_header _ _ _ _ _ Hh) in Hl. injection Hl as _ <-.
    apply matchSection_existsb.
  - pose proof (configLine_section secs text cur st Hh) as Hc.
    by rewrite Hl in Hc.
Qed.

Lemma configLine_inert secs text cur st :
  inert text = true -> configLine secs text cur st = (st, cur, None).
Proof.
  unfold inert, sectionHeader, configLine. cbv zeta.
  destruct (_ || _); [done|].
  destruct (strings.HasPrefix _ "[" && _); [done|].
  intros ->%negb_true_iff. by rewrite andb_false_r.
Qed.

(** X11: blank lines, comments and every line that is neither a header nor
    starts with [env.] count for nothing: the loop does the same on the
    file without them. *)
Theorem scanLoop_without_inert_lines (secs lines : list string)
    (cur : string) (st : Proc) :
  scanLoop secs (List.filter (fun text => negb (inert text)) lines) cur st
  = scanLoop secs lines cur st.
Proof.
  revert cur st. induction lines as [|text lines IH]; intros cur st; [done|].
  simpl. destruct (inert text) eqn:Hi; simpl.
  - by rewrite (configLine_inert _ _ _ _ Hi).
  - destruct (configLine secs text cur st) as [[st1 cur1] [err|]];
      [done|apply IH].
Qed.

(** X12: below an open section, a line that reads [env.], a key, a space
    and more sets the variable named by the key to what follows the space,
    less the white space around it; the key must not be empty and must hold
    no space, no [=] and no NUL byte, nor the value a NUL byte. Nothing else
    changes. *)
Theorem configLine_assigns (secs : list string) (text cur : string)
    (st : Proc) (key rest : string) :
  cur <> "" ->
  strings.TrimSpace text = "env." +:+ key +:+ " " +:+ rest ->
  key <> "" ->
  os.hasByte " " key = false ->
  os.hasByte "=" key = false ->
  os.hasByte "000" key = false ->
  os.hasByte "000" (strings.TrimSpace rest) = false ->
  configLine secs text cur st
  = ({| environ := <[key := strings.TrimSpace rest]> (environ st);
        commands := commands st |}, cur, None).
Proof.
  intros Hcur Hline Hkey Hsp Heq Hnul Hval. unfold configLine. cbv zeta.
  rewrite Hline. apply String.eqb_neq in Hcur, Hkey. rewrite Hcur.
  change (String.eqb ("env." +:+ key +:+ " " +:+ rest) ""
          || strings.HasPrefix ("env." +:+ key +:+ " " +:+ rest) "#")
    with false.
  change (strings.HasPrefix ("env." +:+ key +:+ " " +:+ rest) "[") with false.
  rewrite HasPrefix_app. cbn [andb negb].
  rewrite <- (app_assoc' "env." key), SplitN_space by exact Hsp.
  unfold strings.TrimPrefix. rewrite HasPrefix_app.
  rewrite (sliceFrom_app "env." key).
  unfold os.Setenv. by rewrite Hkey, Heq, Hnul, Hval.
Qed.

Lemma configLine_assigns_witness :
  configLine ["*"] "  env.LANG   C  " "*" start
  = ({| environ := <["LANG" := strings.TrimSpace "  C"]> (environ start);
        commands := commands start |}, "*", None).
Proof.
  apply (configLine_assigns ["*"] "  env.LANG   C  " "*" start "LANG" "  C");
    (reflexivity || discriminate).
Defined.

End ScanningLoopMore.

Lemma scanLoop_current_section_witness :
  snd (fst (scanLoop ["*"; "cpu_*"] ["[cpu_*]"; "[other]"; "env.A 1"]
                     "" start))
  = lastOpened ["*"; "cpu_*"] ["[cpu_*]"; "[other]"; "env.A 1"] "".
Proof.
  apply (scanLoop_current_section ["*"; "cpu_*"]
           ["[cpu_*]"; "[other]"; "env.A 1"] "" start).
  reflexivity.
Defined.

(** ** Plugin execution, continued *)

Section Execution.
Implicit Types (conf : NodeConfig) (sys : OS) (st : Proc).

(** X13: a resolution that fails is not undone. When the lines before an
    [env.] line without a value go through and leave a section open,
    [loadPluginConfig] returns the error for that line and the process keeps
    the variables those lines have set, and so it does after
    [executePlugin], which runs nothing. *)
Theorem failed_resolution_is_kept (conf : NodeConfig) (sys : OS)
    (plugin option : string) (st st1 : Proc) (cur1 : string)
    (pre : list string) (text : string) (post : list string) :
  configLines conf sys = pre ++ text :: post ->
  scanLoop (generatePossibleSections plugin) pre "" st = (st1, cur1, None) ->
  cur1 <> "" ->
  envLineWithoutValue text ->
  loadPluginConfig conf sys plugin st
  = (st1, Some (InvalidFormat (strings.TrimSpace text)))
  /\ (validatePluginPath conf sys (filepath.Join [PluginFolder conf; plugin])
      = None ->
      executePlugin conf sys plugin option st
      = (st1, Err (InvalidFormat (strings.TrimSpace text)))).
Proof.
  intros Hlines Hpre Hcur Henv.
  assert (loadPluginConfig conf sys plugin st
          = (st1, Some (InvalidFormat (strings.TrimSpace text)))) as Hload.
  { destruct (loadPluginConfig_scan conf sys plugin st) as [Hst Herr].
    rewrite Hlines, scanLoop_app, Hpre in Hst, Herr. simpl in Hst, Herr.
    rewrite (configLine_invalid _ _ _ _ Hcur Henv) in Hst, Herr.
    specialize (Herr _ eq_refl).
    destruct (loadPluginConfig conf sys plugin st) as [st' res].
    simpl in *. by subst. }
  split; [exact Hload|]. intros Hvalid. unfold executePlugin.
  by rewrite Hvalid, Hload.
Qed.

Lemma failed_resolution_is_kept_witness :
  let sys := system [("/plugins/cpu", regular "cpu")]
                    ("[*]" +:+ nl +:+ "env.LANG C" +:+ nl
                     +:+ "env.FOO" +:+ nl) in
  let st1 := {| environ := <["LANG" := "C"]> ∅; commands := [] |} in
  loadPluginConfig conf sys "cpu" start
  = (st1, Some (InvalidFormat (strings.TrimSpace "env.FOO")))
  /\ (validatePluginPath conf sys (filepath.Join [PluginFolder conf; "cpu"])
      = None ->
      executePlugin conf sys "cpu" "" start
      = (st1, Err (InvalidFormat (strings.TrimSpace "env.FOO")))).
Proof.
  apply (failed_resolution_is_kept conf _ "cpu" "" start _ "*"
           ["[*]"; "env.LANG C"] "env.FOO" []).
  - reflexivity.
  - vm_compute. reflexivity.
  - discriminate.
  - split; reflexivity.
Defined.

(** X14: when the plugin-configuration file cannot be opened no plugin
    runs: every [config] and [fetch] line is answered by [# Unknown service]
    and a dot, and the process is left as it was. *)
Theorem no_plugin_without_configuration (conf : NodeConfig) (sys : OS)
    (line cmd : string) (args : list string) (st : Proc) :
  (forall absPluginConf,
     filepath.Abs (Getwd sys) (PluginConfig conf) = Some absPluginConf ->
     Open sys absPluginConf = None) ->
  strings.Fields line = cmd :: args ->
  cmd = "config" \/ cmd = "fetch" ->
  handleLine conf sys line st = (st, unknownService, true).
Proof.
  intros Hopen Hfields Hcmd.
  assert (forall plugin option,
            exists err, executePlugin conf sys plugin option st
                        = (st, Err err)) as Hexec.
  { intros plugin option. unfold executePlugin, loadPluginConfig.
    destruct (validatePluginPath _ _ _); [by eauto|].
    destruct (filepath.Abs _ (PluginConfig conf)) as [absPluginConf|] eqn:Ha;
      [|by eauto].
    rewrite (Hopen _ eq_refl). by eauto. }
  unfold handleLine. rewrite Hfields.
  destruct Hcmd as [->| ->]; cbn [String.eqb Ascii.eqb Bool.eqb];
    unfold pluginReply; cbn [String.length Nat.ltb Nat.leb];
    match goal with
    | |- context [executePlugin conf sys ?p ?o st] =>
      destruct (Hexec p o) as [err ->]
    end; reflexivity.
Qed.

Lemma no_plugin_without_configuration_witness :
  let sys := {| Getwd := Some "/"; Lstat := fun _ => Some (regular "cpu");
                ReadDir := fun _ => None; Open := fun _ => None;
                Output := fun _ _ _ => Some "" |} in
  handleLine conf sys "fetch cpu" start = (start, unknownService, true).
Proof.
  apply (no_plugin_without_configuration conf _ "fetch cpu" "fetch" ["cpu"]
           start).
  - reflexivity.
  - reflexivity.
  - by right.
Defined.

(** X15: [executePlugin] runs at most one command, and only the file named
    by the plugin folder joined with the plugin, with the option as its one
    argument and the environment of the process, after all of this: the
    absolute path of the file starts as the absolute plugin folder does,
    [Lstat] finds the file, the file is no symbolic link, and the
    environment resolution went through. It never drops a command run
    before. *)
Theorem run_only_after_validation (conf : NodeConfig) (sys : OS)
    (plugin option : string) (st : Proc) :
  let pluginPath := filepath.Join [PluginFolder conf; plugin] in
  let st' := fst (executePlugin conf sys plugin option st) in
  commands st' = commands st
  \/ (commands st'
      = commands st ++ [{| Path := pluginPath; Args := [option];
                           CmdEnv := environ st' |}]
      /\ snd (loadPluginConfig conf sys plugin st) = None
      /\ exists absPluginPath absAllowedDir fileInfo,
           filepath.Abs (Getwd sys) pluginPath = Some absPluginPath
           /\ filepath.Abs (Getwd sys) (PluginFolder conf) = Some absAllowedDir
           /\ strings.HasPrefix absPluginPath absAllowedDir = true
           /\ Lstat sys absPluginPath = Some fileInfo
           /\ ModeSymlink fileInfo = false).
Proof.
  cbv zeta. unfold executePlugin.
  destruct (validatePluginPath _ _ _) as [err|] eqn:Hvalid; [by left|].
  pose proof (loadPluginConfig_effect conf sys plugin st) as [Hcmd _].
  destruct (loadPluginConfig conf sys plugin st) as [st1 [err|]];
    [by left|].
  right. simpl in Hcmd.
  assert (exists absPluginPath absAllowedDir fileInfo,
           filepath.Abs (Getwd sys) (filepath.Join [PluginFolder conf; plugin])
           = Some absPluginPath
           /\ filepath.Abs (Getwd sys) (PluginFolder conf) = Some absAllowedDir
           /\ strings.HasPrefix absPluginPath absAllowedDir = true
           /\ Lstat sys absPluginPath = Some fileInfo
           /\ ModeSymlink fileInfo = false) as Hchecks.
  { unfold validatePluginPath in Hvalid.
    destruct (filepath.Abs _ (filepath.Join _)) as [a|]; [|done].
    destruct (filepath.Abs _ (PluginFolder conf)) as [d|]; [|done].
    destruct (strings.HasPrefix a d) eqn:Hp; [|done]. simpl in Hvalid.
    destruct (Lstat sys a) as [info|] eqn:Hstat; [|done].
    destruct (ModeSymlink info) eqn:Hs; [done|].
    by exists a, d, info. }
  destruct (Output sys _ _ _); simpl; by rewrite Hcmd.
Qed.

End Execution.

(** ** Sessions *)

Section Sessions.
Implicit Types (conf : NodeConfig) (sys : OS) (st : Proc).

(** X16: only [config] and [fetch] touch the process: a line with any
    other command, or with none, runs nothing and sets no variable. *)
Theorem other_commands_leave_the_process (conf : NodeConfig) (sys : OS)
    (line : string) (st : Proc) :
  commandOf line <> "config" ->
  commandOf line <> "fetch" ->
  fst (fst (handleLine conf sys line st)) = st.
Proof.
  unfold commandOf, handleLine.
  destruct (strings.Fields line) as [|cmd args]; [done|]. simpl hd.
  intros Hconfig%String.eqb_neq Hfetch%String.eqb_neq.
  rewrite Hconfig, Hfetch. by repeat destruct (String.eqb cmd _).
Qed.

Lemma other_commands_leave_the_process_witness :
  fst (fst (handleLine conf (system [] "") "Fetch cpu" start)) = start.
Proof.
  apply (other_commands_leave_the_process conf (system [] "") "Fetch cpu"
           start); discriminate.
Defined.

(** X17: a session ends at [quit]: the lines that follow it are not read,
    and [quit] itself is answered by nothing. *)
Theorem nothing_after_quit (conf : NodeConfig) (sys : OS)
    (pre : list string) (line : string) (post : list string) (st : Proc) :
  commandOf line = "quit" ->
  serve conf sys (pre ++ line :: post) st = serve conf sys pre st.
Proof.
  intros Hquit.
  assert (handleLine conf sys line = fun st => (st, "", false)) as Hline.
  { unfold commandOf in Hquit. unfold handleLine.
    destruct (strings.Fields line) as [|cmd args]; [done|].
    simpl in Hquit. by subst cmd. }
  revert st. induction pre as [|l pre IH]; intros st; simpl.
  - by rewrite Hline.
  - destruct (handleLine conf sys l st) as [[st1 out] [|]]; [|done].
    by rewrite IH.
Qed.

Lemma nothing_after_quit_witness :
  serve conf (system [] "") (["cap"] ++ " quit now" :: ["list"]) start
  = serve conf (system [] "") ["cap"] start.
Proof.
  apply (nothing_after_quit conf (system [] "") ["cap"] " quit now" ["list"]
           start).
  reflexivity.
Defined.

(** X18: every reply ends with a newline, and the only line that gets no
    reply is [quit], which ends the session and leaves the process as it
    was. *)
Theorem replies_end_with_newline (conf : NodeConfig) (sys : OS)
    (line : string) (st : Proc) :
  let '(st', out, continue) := handleLine conf sys line st in
  if continue then strings.HasSuffix out (bytes [10]) = true
  else out = "" /\ st' = st /\ commandOf line = "quit".
Proof.
  unfold handleLine, commandOf.
  destruct (strings.Fields line) as [|cmd args]; [apply HasSuffix_app|].
  simpl hd.
  destruct (String.eqb_spec cmd "cap"); [apply HasSuffix_app|].
  destruct (String.eqb_spec cmd "version").
  { rewrite <- app_assoc'. apply HasSuffix_app. }
  destruct (String.eqb_spec cmd "nodes").
  { rewrite <- !app_assoc'. apply HasSuffix_app. }
  destruct (String.eqb_spec cmd "list"); [apply HasSuffix_app|].
  assert (forall arg option,
            strings.HasSuffix (snd (pluginReply conf sys cmd arg option st))
                              (bytes [10]) = true) as Hreply.
  { intros arg option. unfold pluginReply, Fprintln.
    destruct (_ <? _)%nat; [|apply HasSuffix_app].
    destruct (executePlugin _ _ _ _ _) as [st' [output|err]]; simpl.
    - rewrite <- app_assoc'. apply HasSuffix_app.
    - apply HasSuffix_app. }
  destruct (String.eqb_spec cmd "config").
  { specialize (Hreply (match args with [] => "" | a :: _ => a end) "config").
    by destruct (pluginReply _ _ _ _ _ _). }
  destruct (String.eqb_spec cmd "fetch").
  { specialize (Hreply (match args with [] => "" | a :: _ => a end) "").
    by destruct (pluginReply _ _ _ _ _ _). }
  destruct (String.eqb_spec cmd "quit"); [done|apply HasSuffix_app].
Qed.

(** The scanner on a line that fits its buffer and ends with a newline. *)
Lemma scan_line (max : N) (line rest cur : string) (n : N) :
  os.hasByte "010" line = false ->
  (n + N.of_nat (String.length line) < max)%N ->
  bufio.scan max (line +:+ bytes [10] +:+ rest) cur n
  = (bufio.dropCR (cur +:+ line) :: fst (bufio.Lines max rest),
     snd (bufio.Lines max rest)).
Proof.
  revert cur n. induction line as [|c line IH]; intros cur n Hnl Hlen.
  - rewrite app_empty_l, app_empty_r.
    change (bytes [10] +:+ rest) with (String "010" rest). simpl.
    unfold bufio.Lines. by destruct (bufio.scan max rest "" 0).
  - simpl in Hnl. apply orb_false_elim in Hnl as [Hc Hnl].
    rewrite app_cons. simpl bufio.scan. rewrite Hc.
    assert ((max <=? n + 1)%N = false) as ->.
    { apply N.leb_gt. simpl String.length in Hlen. lia. }
    rewrite IH; [|done|simpl String.length in Hlen; lia].
    by rewrite app_assoc'.
Qed.

(** X19: a session is served line by line. When the input starts with a
    line of fewer than 2048 bytes ended by a newline, the client gets the
    banner, the reply to that line less one carriage return at its end,
    and, unless the line was [quit], what the rest of the input gets. *)
Theorem session_line_by_line (conf : NodeConfig) (sys : OS)
    (line rest : string) (st : Proc) :
  os.hasByte "010" line = false ->
  (N.of_nat (String.length line) < lineMax)%N ->
  handleConnection conf sys (line +:+ bytes [10] +:+ rest) st
  = let '(st1, out1, continue) :=
        handleLine conf sys (bufio.dropCR line) st in
    if continue then
      let '(st2, out2) :=
          serve conf sys (fst (bufio.Lines lineMax rest)) st1 in
      (st2, banner conf +:+ out1 +:+ out2)
    else (st1, banner conf +:+ out1).
Proof.
  intros Hnl Hlen. unfold handleConnection, bufio.Lines at 1.
  rewrite scan_line by (done || lia). rewrite app_empty_l. simpl serve.
  fold (banner conf).
  destruct (handleLine conf sys (bufio.dropCR line) st)
    as [[st1 out1] [|]]; [|done].
  by destruct (serve conf sys _ st1).
Qed.

Lemma session_line_by_line_witness :
  let sys := system [("/plugins/cpu", regular "cpu")] "" in
  let line := "fetch cpu" +:+ bytes [13] in
  let rest := "quit" +:+ nl in
  handleConnection conf sys (line +:+ bytes [10] +:+ rest) start
  = let '(st1, out1, continue) :=
        handleLine conf sys (bufio.dropCR line) start in
    if continue then
      let '(st2, out2) :=
          serve conf sys (fst (bufio.Lines lineMax rest)) st1 in
      (st2, banner conf +:+ out1 +:+ out2)
    else (st1, banner conf +:+ out1).
Proof.
  cbv zeta.
  apply (session_line_by_line conf _ ("fetch cpu" +:+ bytes [13])
           ("quit" +:+ nl) start); reflexivity.
Defined.

(** The scanner on bytes without a newline that fill its buffer. *)
Lemma scan_too_long (max : N) (chunk rest cur : string) (n : N) :
  os.hasByte "010" chunk = false ->
  (n < max)%N ->
  (max <= n + N.of_nat (String.length chunk))%N ->
  bufio.scan max (chunk +:+ rest) cur n = ([], true).
Proof.
  revert cur n. induction chunk as [|c chunk IH]; intros cur n Hnl Hn Hlen.
  - simpl in Hlen. lia.
  - simpl in Hnl. apply orb_false_elim in Hnl as [Hc Hnl].
    rewrite app_cons. simpl bufio.scan. rewrite Hc.
    destruct (N.leb_spec max (n + 1)); [done|].
    apply IH; [done|lia|]. simpl String.length in Hlen. lia.
Qed.

(** X20: when the input starts with 2048 bytes or more that hold no
    newline, the session ends at once: the client gets the banner and
    nothing else, whatever follows, and the process is left as it was. *)
Theorem oversized_first_line (conf : NodeConfig) (sys : OS)
    (chunk rest : string) (st : Proc) :
  os.hasByte "010" chunk = false ->
  (lineMax <= N.of_nat (String.length chunk))%N ->
  handleConnection conf sys (chunk +:+ rest) st = (st, banner conf).
Proof.
  intros Hnl Hlen. unfold handleConnection, bufio.Lines.
  rewrite scan_too_long; [|done|done|lia]. simpl.
  fold (banner conf). by rewrite app_empty_r.
Qed.

End Sessions.

Lemma oversized_first_line_witness :
  handleConnection conf (system [] "")
    (Startup.repeatByte 2048 "a" +:+ (nl +:+ "list" +:+ nl)) start
  = (start, banner conf).
Proof.
  apply (oversized_first_line conf (system [] "")
           (Startup.repeatByte 2048 "a") (nl +:+ "list" +:+ nl) start).
  - vm_compute. reflexivity.
  - vm_compute. discriminate.
Defined.

(** ** The environment of a plugin *)

(** What a line that passes without error does to the environment table:
    below an open section it writes the assignment the line asks for, and
    nothing otherwise. *)
Lemma configLine_environ secs text cur st st1 cur1 :
  configLine secs text cur st = (st1, cur1, None) ->
  environ st1
  = setAll (if negb (String.eqb cur "") then
              match lineAssignment text with Some kv => [kv] | None => [] end
            else [])
           (environ st).
Proof.
  destruct (strings.HasPrefix (strings.TrimSpace text) "env.") eqn:Hpre.
  - unfold configLine, lineAssignment. cbv zeta. rewrite Hpre.
    destruct (HasPrefix_inv _ _ Hpre) as [t Ht]. rewrite Ht.
    change (String.eqb ("env." +:+ t) ""
            || strings.HasPrefix ("env." +:+ t) "#") with false.
    change (strings.HasPrefix ("env." +:+ t) "[") with false.
    cbn [andb]. rewrite andb_true_r.
    destruct (negb (String.eqb cur "")); [|by intros [= <- _]].
    destruct (strings.SplitN _ _ _) as [|part0 [|part1 [|? ?]]]; try done.
    unfold os.Setenv. destruct (_ || _); [done|]. by intros [= <- _].
  - unfold configLine, lineAssignment. cbv zeta. rewrite Hpre.
    rewrite andb_false_r.
    assert (setAll (if negb (String.eqb cur "") then [] else [])
                   (environ st) = environ st) as -> by by destruct (negb _).
    destruct (_ || _); [by intros [= <- _]|].
    destruct (_ && _); by intros [= <- _].
Qed.

Lemma setAll_app assigned1 assigned2 env :
  setAll (assigned1 ++ assigned2) env = setAll assigned2 (setAll assigned1 env).
Proof. unfold setAll. apply fold_left_app. Qed.

(** In a file where no section has to be closed, a loop that goes through
    writes the environment set of the specification into the environment
    table, in the order of the file. *)
Lemma scanLoop_environmentSet secs lines cur st st' cur' :
  ~ In "" secs ->
  sectionsNeverClose secs lines (negb (String.eqb cur "")) = true ->
  scanLoop secs lines cur st = (st', cur', None) ->
  environ st'
  = setAll (environmentSet secs lines (negb (String.eqb cur "")))
           (environ st).
Proof.
  intros Hne. revert cur st.
  induction lines as [|text lines IH]; intros cur st Hkeep; simpl.
  - by intros [= <- _].
  - destruct (configLine secs text cur st) as [[st1 cur1] [err|]] eqn:Hl;
      [done|].
    intros Hloop. simpl in Hkeep.
    destruct (sectionHeader text) as [section|] eqn:Hh.
    + rewrite (configLine_header _ _ _ _ _ Hh) in Hl.
      injection Hl as <- <-. rewrite matchSection_existsb in Hloop.
      destruct (existsb (String.eqb section) secs) eqn:Hin.
      * assert (negb (String.eqb section "") = true) as Hopen.
        { apply negb_true_iff, String.eqb_neq. intros ->.
          apply existsb_exists in Hin as (sec & Hsec & <-%String.eqb_eq).
          by apply Hne. }
        pose proof (IH section st) as IH'. rewrite Hopen in IH'.
        by apply IH'.
      * apply andb_prop in Hkeep as [Hclosed Hkeep].
        apply negb_true_iff in Hclosed.
        pose proof (IH cur st) as IH'. rewrite Hclosed in IH', Hkeep.
        by apply IH'.
    + pose proof (configLine_section secs text cur st Hh) as Hc.
      rewrite Hl in Hc. simpl in Hc. subst cur1.
      rewrite setAll_app, <- (configLine_environ _ _ _ _ _ _ Hl).
      by apply IH.
Qed.

(** The entry of a key after assignments made in order is the value of the
    last assignment to the key, and the old entry when there is none. *)
Lemma setAll_lookup assigned env key :
  setAll assigned env !! key
  = match lastAssigned key assigned with
    | Some value => Some value
    | None => env !! key
    end.
Proof.
  unfold setAll, lastAssigned.
  induction assigned as [|[k v] assigned IH] using rev_ind; [done|].
  rewrite !fold_left_app. simpl.
  destruct (String.eqb_spec k key) as [->|Hk].
  - apply lookup_insert_eq.
  - by rewrite lookup_insert_ne.
Qed.

(** C2, amended: a plugin that [executePlugin] runs with success gets the
    environment table of the process itself. Into that table the
    environment set resolved for the plugin has been written, in the order
    of the file and on top of what the table held, so that the entry of a
    variable is the value of the last assignment to it and, for a variable
    that is not assigned, the entry it had, whichever invocation put it
    there; and the table stays so after the invocation. This is stated for
    a plugin-configuration file in which no header that names none of the
    candidate sections stands below a header that names one. *)
Theorem C2_environment_of_the_process (conf : NodeConfig) (sys : OS)
    (plugin option : string) (st st' : Proc) (output : string) :
  executePlugin conf sys plugin option st = (st', Ok output) ->
  sectionsNeverClose (generatePossibleSections plugin) (configLines conf sys)
                     false = true ->
  let pluginPath := filepath.Join [PluginFolder conf; plugin] in
  let assigned :=
    environmentSet (generatePossibleSections plugin) (configLines conf sys)
                   false in
  environ st' = setAll assigned (environ st)
  /\ (forall key,
        environ st' !! key
        = match lastAssigned key assigned with
          | Some value => Some value
          | None => environ st !! key
          end)
  /\ commands st'
     = commands st ++ [{| Path := pluginPath; Args := [option];
                          CmdEnv := environ st' |}]
  /\ Output sys pluginPath [option] (environ st') = Some output.
Proof.
  unfold executePlugin.
  set (pluginPath := filepath.Join [PluginFolder conf; plugin]).
  intros Hrun Hkeep. cbv zeta.
  destruct (validatePluginPath _ _ _); [done|].
  pose proof (loadPluginConfig_effect conf sys plugin st) as [Hcmd _].
  destruct (loadPluginConfig_scan conf sys plugin st) as [Hst Herr].
  destruct (loadPluginConfig conf sys plugin st) as [st1 [err|]]; [done|].
  cbn [fst snd] in *.
  destruct (Output sys pluginPath [option] (environ st1)) as [out|] eqn:Hout;
    [|done].
  injection Hrun as <- <-. cbn [environ commands].
  assert (environ st1
          = setAll (environmentSet (generatePossibleSections plugin)
                                   (configLines conf sys) false)
                   (environ st)) as Henv.
  { destruct (scanLoop (generatePossibleSections plugin)
                       (configLines conf sys) "" st)
      as [[st2 cur2] [err|]] eqn:Hloop.
    - by specialize (Herr _ eq_refl).
    - simpl in Hst. subst st2.
      apply (scanLoop_environmentSet _ _ "" st st1 cur2);
        [apply candidates_nonempty|exact Hkeep|exact Hloop]. }
  rewrite Hcmd. repeat split; [exact Henv| |done].
  intros key. rewrite Henv. apply setAll_lookup.
Qed.

Lemma C2_environment_of_the_process_witness :
  let file := "[other]" +:+ nl +:+ "env.A 0" +:+ nl
              +:+ "[cpu_*]" +:+ nl +:+ "env.A 1" +:+ nl
              +:+ "env.A 2" +:+ nl +:+ "env.SECRET 1" +:+ nl in
  let sys := system [("/plugins/cpu", regular "cpu")] file in
  let st := {| environ := <["LANG" := "C"]> ∅; commands := [] |} in
  let st' := fst (executePlugin conf sys "cpu" "" st) in
  let pluginPath := filepath.Join [PluginFolder conf; "cpu"] in
  let assigned :=
    environmentSet (generatePossibleSections "cpu") (configLines conf sys)
                   false in
  environ st' = setAll assigned (environ st)
  /\ (forall key,
        environ st' !! key
        = match lastAssigned key assigned with
          | Some value => Some value
          | None => environ st !! key
          end)
  /\ commands st'
     = commands st ++ [{| Path := pluginPath; Args := [""];
                          CmdEnv := environ st' |}]
  /\ Output sys pluginPath [""] (environ st')
     = Some ("/plugins/cpu  SECRET=1" +:+ nl).
Proof.
  cbv zeta. eapply C2_environment_of_the_process.
  - vm_compute. reflexivity.
  - vm_compute. reflexivity.
Defined.

(** The environment set and the table of the witness: the two assignments
    to [A] come in the order of the file and the second one stays. *)
Example C2_environment_example :
  let file := "[other]" +:+ nl +:+ "env.A 0" +:+ nl
              +:+ "[cpu_*]" +:+ nl +:+ "env.A 1" +:+ nl
              +:+ "env.A 2" +:+ nl +:+ "env.SECRET 1" +:+ nl in
  let sys := system [("/plugins/cpu", regular "cpu")] file in
  let st := {| environ := <["LANG" := "C"]> ∅; commands := [] |} in
  environmentSet (generatePossibleSections "cpu") (configLines conf sys)
                 false
  = [("A", "1"); ("A", "2"); ("SECRET", "1")]
  /\ environ (fst (executePlugin conf sys "cpu" "" st))
     = <["SECRET" := "1"]> (<["A" := "2"]> (<["LANG" := "C"]> ∅)).
Proof. vm_compute. split; reflexivity. Qed.
